(** * AFTDF: density expansion on plane waves (pyscf/pbc/df/aft.py)

    A shallow embedding of the control logic of [aft.py]: the block-size
    arithmetic and the two plane-wave generators [pw_loop] and [ft_loop],
    the nuclear-attraction builder [get_nuc] with its helper
    [_int_nuc_vloc], the pseudopotential assembler [get_pp], the J/K
    dispatcher [get_jk], [get_naoaux] and [estimate_eta].

    Conventions.
    - Matrix entries are float64 / complex128 values.  The code only adds,
      multiplies, negates and conjugates them, so they are kept abstract
      (class [Float]); no algebraic law is assumed of them.
    - The memory budget is float64 arithmetic followed by [int(...)],
      [max] and [min]: it is computed with the binary64 floats of the
      Standard Library ([PrimFloat]), rounding as the code does.
    - numpy integers wrap around: the pair counts are int32 values (the
      dtype of [cell.ao_loc_nr()]), the grid counts of [get_naoaux] int64.
    - Functions of other modules (the integral library, the lattice
      utilities, [aft_jk]) are fields of the records [Cell] and [Extern].
    - A Python exception is a value of [exn]; a generator is the list of
      the items it yields together with the exception that ended it. *)

From Stdlib Require Import ZArith QArith Qabs Qround Qminmax List Lia Bool.
From Stdlib Require Import Reals.
From Stdlib Require Import Floats.
From Stdlib Require String Lqa Lra Uint63.
Import ListNotations.

Set Implicit Arguments.

(** ** Exceptions and results *)

Inductive exn : Type :=
| AssertShlsSlice     (* assert(shls_slice[2] == 0) *)
| AssertZeroQ         (* assert(is_zero(q)) *)
| OverflowError       (* int(inf) *)
| ValueError          (* int(nan), reshape of a wrong size, range step 0 *)
| TypeError           (* an in-place sum of a complex array into a real one *)
| IndexError.         (* list index out of range *)

Inductive result (A : Type) : Type :=
| Ok (a : A)
| Raise (e : exn).
Arguments Raise {A} e.

Definition bind {A B} (r : result A) (k : A -> result B) : result B :=
  match r with
  | Ok a => k a
  | Raise e => Raise e
  end.

Notation "x <- e ;; k" := (bind e (fun x => k))
  (at level 61, e at next level, right associativity).
Notation "' p <- e ;; k" := (bind e (fun x => let p := x in k))
  (at level 61, p pattern, e at next level, right associativity).

(** A generator run to exhaustion: the items yielded, in order, and the
    exception (if any) that stopped it. *)
Record gen (A : Type) : Type := Gen {
  yielded : list A;
  stopped : option exn
}.

(** All the exceptions of [pw_loop] and [ft_loop] are raised before the
    [for] loop is entered, so such a generator is either an exception with
    nothing yielded or a complete list. *)
Definition gen_of_result {A} (r : result (list A)) : gen A :=
  match r with
  | Ok l => Gen l None
  | Raise e => Gen [] (Some e)
  end.

Definition result_of_gen {A} (g : gen A) : result (list A) :=
  match stopped g with
  | None => Ok (yielded g)
  | Some e => Raise e
  end.

(** ** Fixed-width integers *)

(** The value a [w]-bit two's-complement integer takes for the exact result
    [z] of an operation: numpy's integer arithmetic wraps around. *)
Definition wrap (w : Z) (z : Z) : Z :=
  ((z + 2 ^ (w - 1)) mod 2 ^ w - 2 ^ (w - 1))%Z.

Definition int32 : Z -> Z := wrap 32.
Definition int64 : Z -> Z := wrap 64.

(** Congruence modulo [2^w]. *)
Definition congr (w a b : Z) : Prop := (a mod 2 ^ w = b mod 2 ^ w)%Z.

(** ** Python numerics on the memory budget *)

(** The float64 of a numpy integer, as a division converts it (exact up to
    2^53 in magnitude, so for every int32). *)
Definition float_of_int (z : Z) : float :=
  match z with
  | Z0 => PrimFloat.zero
  | Zpos _ => PrimFloat.of_uint63 (Uint63.of_Z z)
  | Zneg p => PrimFloat.opp (PrimFloat.of_uint63 (Uint63.of_Z (Zpos p)))
  end.

(** [int(x)] for a float [x]: truncation toward zero; [int(inf)] raises
    OverflowError and [int(nan)] ValueError. *)
Definition py_int (x : float) : result Z :=
  match Prim2SF x with
  | S754_nan => Raise ValueError
  | S754_infinity _ => Raise OverflowError
  | S754_zero _ => Ok 0%Z
  | S754_finite s m e => Ok (cond_Zopp s (Z.shiftl (Zpos m) e))
  end.

(** [max(a, b)] on two floats: [b] when [b > a], else [a]. *)
Definition py_max (a b : float) : float :=
  if PrimFloat.ltb a b then b else a.

(** [lib.prange(start, stop, step)]:
    [for i in range(start, stop, step): yield i, min(i+step, stop)]. *)
Definition prange (start stop step : Z) : result (list (Z * Z)) :=
  if (step =? 0)%Z then Raise ValueError
  else if (step <? 0)%Z then
    (* a descending range; the loops below only call it with start <= stop *)
    Ok (map (fun i => let p := (start + Z.of_nat i * step)%Z in
                      (p, Z.min (p + step) stop))
            (seq 0 (Z.to_nat ((start - stop + (- step) - 1) / (- step)))))
  else
    Ok (map (fun i => let p := (start + Z.of_nat i * step)%Z in
                      (p, Z.min (p + step) stop))
            (seq 0 (Z.to_nat ((stop - start + step - 1) / step)))).

(** ** Block sizes *)

(** pw_loop: the float [max_memory*1e6*.75/16/nij] whose integer part is
    taken; [nij] is a numpy integer, so that a zero [nij] gives [inf] or
    [nan] and no ZeroDivisionError. *)
Definition pw_budget (max_memory : float) (nij : Z) : float :=
  (max_memory * 1e6 * 0.75 / 16 / float_of_int nij)%float.

(** pw_loop, [blksize is None]:
    [min(max(16, int(max_memory*1e6*.75/16/nij)), 16384)]. *)
Definition pw_blksize (max_memory : float) (nij : Z) : result Z :=
  b <- py_int (pw_budget max_memory nij) ;;
  Ok (Z.min (Z.max 16 b) 16384).

(** pw_loop: [sublk = max(16, int(blksize//4))]. *)
Definition pw_sublk (blksize : Z) : Z := Z.max 16 (blksize / 4).

(** ft_loop: the float [max_memory*.9e6/(nij*nkpts*16)]; the divisor is an
    int32 product. *)
Definition ft_budget (max_memory : float) (nij nkpts : Z) : float :=
  (max_memory * 0.9e6
   / float_of_int (int32 (int32 (nij * nkpts) * 16)))%float.

(** ft_loop:
    [blksize = max(16, int(max_memory*.9e6/(nij*nkpts*16)))]
    [blksize = min(blksize, ngs, 16384)]. *)
Definition ft_blksize (max_memory : float) (nij nkpts ngs : Z) : result Z :=
  b <- py_int (ft_budget max_memory nij nkpts) ;;
  let blksize := Z.max 16 b in
  Ok (Z.min (Z.min blksize ngs) 16384).

(** The number of orbital pairs of a shell slice, an int32 as the entries
    of [ao_loc] are.
    ['s2']: [assert(shls_slice[2] == 0)], then
    [i1*(i1+1)//2 - i0*(i0+1)//2]; otherwise [ni*nj]. *)
Inductive aosym_t : Type := S1 | S2.

Definition shls_slice_t : Type := (Z * Z * Z * Z)%type.

Definition pair_count (ao_loc : Z -> Z) (aosym : aosym_t)
           (shls_slice : shls_slice_t) : result Z :=
  let '(sh0, sh1, sh2, sh3) := shls_slice in
  match aosym with
  | S2 =>
      if (sh2 =? 0)%Z then
        let i0 := ao_loc sh0 in
        let i1 := ao_loc sh1 in
        Ok (int32 (int32 (int32 (i1 * int32 (i1 + 1)) / 2)
                   - int32 (int32 (i0 * int32 (i0 + 1)) / 2)))
      else Raise AssertShlsSlice
  | S1 =>
      let ni := int32 (ao_loc sh1 - ao_loc sh0) in
      let nj := int32 (ao_loc sh3 - ao_loc sh2) in
      Ok (int32 (ni * nj))
  end.

(** ** Scalars, arrays and the external interface *)

(** float64 values with the operations the module applies to them. *)
Class Float (F : Type) : Type := {
  f0 : F;
  fadd : F -> F -> F;
  fsub : F -> F -> F;
  fmul : F -> F -> F;
  fdiv : F -> F -> F;
  fneg : F -> F;
  fabs : F -> F;
  feqb : F -> F -> bool;
  fltb : F -> F -> bool;
  flit : Q -> F          (* the float written as a decimal literal *)
}.

Section Model.
Context {F : Type} `{Float F}.

(** complex128 *)
Record complex : Type := Cx { re : F; im : F }.

Definition c0 : complex := Cx f0 f0.
Definition cadd (a b : complex) : complex :=
  Cx (fadd (re a) (re b)) (fadd (im a) (im b)).
Definition cmul (a b : complex) : complex :=
  Cx (fsub (fmul (re a) (re b)) (fmul (im a) (im b)))
     (fadd (fmul (re a) (im b)) (fmul (im a) (re b))).
Definition cneg (a : complex) : complex := Cx (fneg (re a)) (fneg (im a)).
Definition conj (a : complex) : complex := Cx (re a) (fneg (im a)).
(** a complex array times a real array, elementwise *)
Definition cscale (a : complex) (r : F) : complex :=
  Cx (fmul (re a) r) (fmul (im a) r).
(** adding a real array into a complex one *)
Definition cadd_real (a : complex) (r : F) : complex := Cx (fadd (re a) r) (im a).

(** A single k-point or momentum transfer: an array of shape (3,). *)
Definition vec3 : Type := (F * F * F)%type.
Definition zeros3 : vec3 := (f0, f0, f0).
Definition vec3_sub (a b : vec3) : vec3 :=
  let '(a0, a1, a2) := a in
  let '(b0, b1, b2) := b in
  (fsub a0 b0, fsub a1 b1, fsub a2 b2).
Definition vec3_list (v : vec3) : list F :=
  let '(a, b, c) := v in [a; b; c].

(** [is_zero] of [pyscf.pbc.lib.kpt_misc], which line 19 imports and whose
    body is not in this module: [abs(kpt).sum() < KPT_DIFF_TOL] with
    [KPT_DIFF_TOL = 1e-6]; [gamma_point] there is the same function. *)
Definition kpt_is_zero (kpt : vec3) : bool :=
  let '(a, b, c) := kpt in
  fltb (fadd (fadd (fabs a) (fabs b)) (fabs c)) (flit 1e-6).

(** A real numpy array of k-points: its shape, of at least one dimension
    (a k-point set is a sequence), and its elements in C order. *)
Record ndarray : Type := NdArray {
  shape0 : nat;
  shape_rest : list nat;
  data : list F
}.

Definition shape (a : ndarray) : list nat := shape0 a :: shape_rest a.

(** an array of shape (3,) *)
Definition arr_of_vec3 (v : vec3) : ndarray := NdArray 3 [] (vec3_list v).
(** an array of shape (n,3) *)
Definition arr_of_rows (rows : list vec3) : ndarray :=
  NdArray (length rows) [3%nat] (flat_map vec3_list rows).

(** [numpy.shape(a) == (3,)] *)
Definition shape_is_3 (a : ndarray) : bool :=
  match shape a with
  | [3%nat] => true
  | _ => false
  end.

(** [len(a)]: the first dimension. *)
Definition py_len (a : ndarray) : Z := Z.of_nat (shape0 a).

(** [numpy.reshape(a, (-1,3))]: the rows of three consecutive elements;
    a size that is not a multiple of three is refused. *)
Fixpoint chunk3 (l : list F) : result (list vec3) :=
  match l with
  | [] => Ok []
  | a :: b :: c :: r => rows <- chunk3 r ;; Ok ((a, b, c) :: rows)
  | _ => Raise ValueError
  end.

Definition reshape_m1_3 (a : ndarray) : result (list vec3) := chunk3 (data a).

(** [numpy.all(a == 0)] *)
Definition all_zero (a : ndarray) : bool :=
  forallb (fun x => feqb x f0) (data a).

(** [a[p0:p1]] for [0 <= p0 <= p1]. *)
Definition slice {A} (l : list A) (p0 p1 : Z) : list A :=
  firstn (Z.to_nat (p1 - p0)) (skipn (Z.to_nat p0) l).

(** [m.T] for a matrix of [ncol] columns given by rows. *)
Definition transpose {A} (d : A) (ncol : nat) (m : list (list A)) : list (list A) :=
  map (fun j => map (fun row => nth j row d) m) (seq 0 ncol).

(** A real or a complex matrix, by rows (numpy keeps one dtype per array). *)
Inductive matrix : Type :=
| RMat (m : list (list F))
| CMat (m : list (list complex)).

(** The reciprocal grid of [cell.get_Gv_weights(gs)]. *)
Record grid : Type := Grid {
  Gv : list vec3;
  Gvbase : list (list F);
  kws : list F
}.

(** [gxyz = lib.cartesian_prod([numpy.arange(len(x)) for x in Gvbase])],
    [ngs = gxyz.shape[0]]: the product of the lengths. *)
Definition grid_ngs (g : grid) : Z :=
  fold_right Z.mul 1%Z (map (fun x => Z.of_nat (length x)) (Gvbase g)).

(** What the module reads of [cell]. *)
Record Cell : Type := {
  nbas : Z;
  ao_loc_nr : Z -> Z;
  nao_nr : nat;
  natm : nat;
  atom_charges : list F;
  dimension : Z;
  vol : F;
  get_Gv_weights : list Z -> grid;
  get_SI : list vec3 -> list (list complex);
  (* rloc of cell._pseudo[cell.atom_symbol(ia)], when the atom has one *)
  pseudo_rloc : nat -> option F
}.

(** The auxiliary charge cell of [get_nuc]: a copy of [cell] whose basis
    is one s-Gaussian of exponent [eta] and norm [norm] per atom
    ([chg_env = [eta, norm]], [chg_bas] one row per atom). *)
Record NucCell : Type := {
  chg_eta : F;
  chg_norm : F;
  chg_bas : list nat
}.

(** [_fake_nuc(cell)]: per atom, the exponent and norm of its steep shell. *)
Record FakeNuc : Type := {
  fake_env : list (F * F)
}.

(** Functions of other modules, by the names they are called with. *)
Record Extern : Type := {
  is_zero : vec3 -> bool;                   (* kpt_misc.is_zero *)
  gamma_point : vec3 -> bool;               (* kpt_misc.gamma_point *)
  current_memory : float;                   (* lib.current_memory()[0] *)
  (* ft_ao._ft_aopair_kpts(cell, Gv[p0:p1], shls_slice, aosym, b,
     gxyz[p0:p1], Gvbase, q, kpts): per k-point, per grid point, the pairs *)
  ft_aopair_kpts : list vec3 -> shls_slice_t -> aosym_t -> Z * Z ->
                   vec3 -> ndarray -> list (list (list complex));
  ft_ao : NucCell -> list vec3 -> list (list complex);
  get_coulG : vec3 -> bool -> list Z -> list vec3 -> list F;
  get_gth_vlocG_part1 : list vec3 -> list (list F);
  half_sph_norm : F;                        (* .5/numpy.sqrt(numpy.pi) *)
  f_pi : F;                                 (* numpy.pi *)
  gaussian_int : Z -> F -> F;               (* gto.mole._gaussian_int *)
  (* incore.aux_e2(cell, fakenuc, intor, aosym='s2', kptij_lst) reshaped
     to (nkpts, nao_pair, nchg) *)
  aux_e2 : NucCell -> FakeNuc -> list vec3 -> list (list (list complex));
  (* lib.pack_tril(cell.pbc_intor('int1e_ovlp_sph', 1, HERMITIAN, kpts)[k]) *)
  ovlp_tril : list vec3 -> list (list complex);
  get_pp_loc_part2 : list vec3 -> list matrix;
  get_pp_nl : list vec3 -> list matrix
}.

(** ** The AFTDF object and its plane-wave generators *)

(** [AFTDF.__init__]: the attributes of the object. *)
Record AFTDF : Type := {
  self_cell : Cell;
  self_max_memory : float;
  self_eta : F;
  self_kpts : ndarray;
  self_gs : list Z;
  self_blockdim : Z
}.

Variable ext : Extern.

(** [lib.prange] with a step already known to be nonzero. *)
Definition prange_list (start stop step : Z) : list (Z * Z) :=
  match prange start stop step with
  | Ok l => l
  | Raise _ => []
  end.

(** What [pw_loop] yields: [(pqkR, pqkI, p0+i0, p0+i1)].  The two buffers are
    reused from one item to the next in the source; an item here is the
    content at the time it is yielded. *)
Record pw_item : Type := PwItem {
  pqkR : list (list F);
  pqkI : list (list F);
  pw_start : Z;
  pw_stop : Z
}.

(** The body of the outer [for p0, p1] of [pw_loop]: the sub-blocks of one
    block.  [sublk] is nonzero here: an explicit [blksize] of zero has been
    refused by the outer [prange], and otherwise [sublk >= 16]. *)
Definition pw_block (g : grid) (shls_slice : shls_slice_t) (aosym : aosym_t)
           (q kptj : vec3) (nij sublk : Z) (p : Z * Z) : list pw_item :=
  let '(p0, p1) := p in
  let aoao := hd [] (ft_aopair_kpts ext (slice (Gv g) p0 p1) shls_slice aosym
                       (p0, p1) q (arr_of_rows [kptj])) in
  map (fun i : Z * Z =>
         let '(i0, i1) := i in
         let rows := slice aoao i0 i1 in
         PwItem (transpose f0 (Z.to_nat nij) (map (map re) rows))
                (transpose f0 (Z.to_nat nij) (map (map im) rows))
                (p0 + i0) (p0 + i1))
      (prange_list 0 (p1 - p0) sublk).

(** [AFTDF.pw_loop(gs, kpti_kptj, q, shls_slice, max_memory, aosym, blksize)] *)
Definition pw_loop (self : AFTDF) (gs : option (list Z))
           (kpti_kptj : option (vec3 * vec3)) (q : option vec3)
           (shls_slice : option shls_slice_t) (max_memory : float)
           (aosym : aosym_t) (blksize : option Z) : gen pw_item :=
  gen_of_result (
    let cell := self_cell self in
    let gs := match gs with None => self_gs self | Some gs => gs end in
    let '(kpti, kptj) :=
      match kpti_kptj with None => (zeros3, zeros3) | Some kk => kk end in
    let q := match q with None => vec3_sub kptj kpti | Some q => q end in
    let ao_loc := ao_loc_nr cell in
    let g := get_Gv_weights cell gs in
    let ngs := grid_ngs g in
    let shls_slice :=
      match shls_slice with
      | None => (0, nbas cell, 0, nbas cell)%Z
      | Some s => s
      end in
    nij <- pair_count ao_loc aosym shls_slice ;;
    bs <- match blksize with
          | None => b <- pw_blksize max_memory nij ;; Ok (b, pw_sublk b)
          | Some b => Ok (b, b)
          end ;;
    let '(blksize, sublk) := bs in
    blocks <- prange 0 ngs blksize ;;
    Ok (flat_map (pw_block g shls_slice aosym q kptj nij sublk) blocks)).

(** What [ft_loop] yields: [(dat, p0, p1)]. *)
Record ft_item : Type := FtItem {
  ft_dat : list (list (list complex));
  ft_start : Z;
  ft_stop : Z
}.

(** The k-point batch of [ft_loop]:
    [if kpts is None: assert(is_zero(q)); kpts = self.kpts]. *)
Definition ft_kpts (self : AFTDF) (q : vec3) (kpts : option ndarray)
  : result ndarray :=
  match kpts with
  | None => if is_zero ext q then Ok (self_kpts self) else Raise AssertZeroQ
  | Some k => Ok k
  end.

(** [AFTDF.ft_loop(gs, q, kpts, shls_slice, max_memory, aosym)] *)
Definition ft_loop (self : AFTDF) (gs : option (list Z)) (q : vec3)
           (kpts : option ndarray) (shls_slice : option shls_slice_t)
           (max_memory : float) (aosym : aosym_t) : gen ft_item :=
  gen_of_result (
    let cell := self_cell self in
    let gs := match gs with None => self_gs self | Some gs => gs end in
    kpts <- ft_kpts self q kpts ;;
    let nkpts := py_len kpts in
    let ao_loc := ao_loc_nr cell in
    let g := get_Gv_weights cell gs in
    let ngs := grid_ngs g in
    let shls_slice :=
      match shls_slice with
      | None => (0, nbas cell, 0, nbas cell)%Z
      | Some s => s
      end in
    nij <- pair_count ao_loc aosym shls_slice ;;
    blksize <- ft_blksize max_memory nij nkpts ngs ;;
    blocks <- prange 0 ngs blksize ;;
    Ok (map (fun p : Z * Z =>
               let '(p0, p1) := p in
               FtItem (ft_aopair_kpts ext (slice (Gv g) p0 p1) shls_slice
                         aosym (p0, p1) q kpts) p0 p1)
            blocks)).

(** [AFTDF.get_naoaux()]:
    [gs = numpy.asarray(self.gs); ngs = numpy.prod(gs*2+1); return ngs * 2],
    on an int64 array: the elementwise operations, the product and the
    final doubling wrap around. *)
Definition get_naoaux (self : AFTDF) : Z :=
  let gs := self_gs self in
  let ngs := fold_left (fun acc g => int64 (acc * g))
                       (map (fun g => int64 (int64 (g * 2) + 1)) gs) 1%Z in
  int64 (ngs * 2).

(** ** Contractions *)

(** Elementwise operations pair the elements of two arrays of equal shape
    (numpy refuses unequal shapes; the collaborators return equal ones). *)
Definition zip_with {A B C} (f : A -> B -> C) (a : list A) (b : list B)
  : list C :=
  map (fun ab : A * B => f (fst ab) (snd ab)) (combine a b).

(** [for i, x in enumerate(l)] building a new list *)
Definition imap {A B} (f : nat -> A -> B) (l : list A) : list B :=
  zip_with f (seq 0 (length l)) l.

(** Python's [sum] and einsum's reductions: left to right from zero. *)
Definition fsum (l : list F) : F := fold_left fadd l f0.
Definition csum (l : list complex) : complex := fold_left cadd l c0.

(** [numpy.einsum('k,kx->x', v, m)[x]] for real [v], [m] *)
Definition dot_col_real (v : list F) (m : list (list F)) (x : nat) : F :=
  fsum (zip_with (fun vk row => fmul vk (nth x row f0)) v m).

(** [numpy.einsum('k,kx->x', v, m)[x]] for complex [v], [m] *)
Definition dot_col_cplx (v : list complex) (m : list (list complex)) (x : nat)
  : complex :=
  csum (zip_with (fun vk row => cmul vk (nth x row c0)) v m).

(** [numpy.einsum('i,xi->x', charge, aoaux)] for real [charge] *)
Definition contract_charge (charge : list F) (aoaux : list (list complex))
  : list complex :=
  map (fun row => csum (zip_with (fun c a => cscale a c) charge row)) aoaux.

(** [numpy.einsum('ij,ij->j', SI, vlocG)] over [n] columns *)
Definition contract_SI (SI : list (list complex)) (vlocG : list (list F))
           (n : nat) : list complex :=
  map (fun j => csum (zip_with (fun si vl => cscale (nth j si c0) (nth j vl f0))
                               SI vlocG))
      (seq 0 n).

(** Modelled from the spec: [lib.unpack_tril] is not part of this module.
    A potential matrix is "stored compactly (unique upper/lower triangle)
    then expanded on return": the packed vector holds the lower triangle row
    by row, entry (i,j) with j <= i at i(i+1)/2 + j, and the upper triangle
    is filled with the conjugate of the mirrored entry. The dimension is
    recovered from the packed length, [nd = int(sqrt(2*size))]. *)
Definition unpack_tril {A} (cj : A -> A) (d : A) (tril : list A)
  : list (list A) :=
  let nd := Nat.sqrt (2 * length tril) in
  map (fun i =>
         map (fun j =>
                if (j <=? i)%nat then nth (i * (i + 1) / 2 + j) tril d
                else cj (nth (j * (j + 1) / 2 + i) tril d))
             (seq 0 nd))
      (seq 0 nd).

(** ** Nuclear attraction *)

(** [_fake_nuc(cell)]: [eta = .5 / rloc**2] from the pseudopotential of the
    atom, [1e16] without one; [norm = half_sph_norm/_gaussian_int(2, eta)]. *)
Definition _fake_nuc (cell : Cell) : FakeNuc :=
  {| fake_env :=
       map (fun ia =>
              let eta := match pseudo_rloc cell ia with
                         | Some rloc => fdiv (flit 0.5) (fmul rloc rloc)
                         | None => flit 1e16
                         end in
              (eta, fdiv (half_sph_norm ext) (gaussian_int ext 2 eta)))
           (seq 0 (natm cell)) |}.

(** [_int_nuc_vloc(mydf, nuccell, kpts)]: Vnuc - Vloc, packed, per k-point *)
Definition _int_nuc_vloc (self : AFTDF) (nuccell : NucCell)
           (kpts : list vec3) : list (list complex) :=
  let cell := self_cell self in
  let fakenuc := _fake_nuc cell in
  let buf := aux_e2 ext nuccell fakenuc kpts in
  let charge := atom_charges cell in
  let charge := (charge ++ map fneg charge)%list in
  (* mat = numpy.einsum('kxz,z->kx', buf, charge) *)
  let mat := map (map (fun bz => csum (zip_with cscale bz charge))) buf in
  if (dimension cell =? 3)%Z then
    let nucbar := fsum (map (fun z => fdiv z (chg_eta nuccell))
                            (atom_charges cell)) in
    let nucbar := fmul nucbar (fdiv (f_pi ext) (vol cell)) in
    let ovlp := ovlp_tril ext kpts in
    imap (fun k matk =>
            zip_with cadd matk (map (fun s => cscale s nucbar) (nth k ovlp [])))
         mat
  else mat.

(** The first half of [get_nuc]: the reciprocal nuclear density [vG] and the
    initial packed matrices [vj], by [mydf.eta == 0].  [int_nuc_vloc] stands
    for the method [mydf._int_nuc_vloc]. *)
Definition nuc_density
           (int_nuc_vloc : AFTDF -> NucCell -> list vec3 -> list (list complex))
           (self : AFTDF) (g : grid) (kpts_lst : list vec3)
  : list complex * list (list complex) :=
  let cell := self_cell self in
  let nkpts := length kpts_lst in
  let nao := nao_nr cell in
  let nao_pair := (nao * (nao + 1) / 2)%nat in
  let kpt_allow := zeros3 in
  if feqb (self_eta self) f0 then
    let vpplocG := get_gth_vlocG_part1 ext (Gv g) in
    let vpplocG := map cneg (contract_SI (get_SI cell (Gv g)) vpplocG
                                         (length (Gv g))) in
    let vpplocG := zip_with cscale vpplocG (kws g) in
    (vpplocG, repeat (repeat c0 nao_pair) nkpts)
  else
    let norm := fdiv (half_sph_norm ext) (gaussian_int ext 2 (self_eta self)) in
    let nuccell := {| chg_eta := self_eta self; chg_norm := norm;
                      chg_bas := seq 0 (natm cell) |} in
    let vj := int_nuc_vloc self nuccell kpts_lst in
    let charge := map fneg (atom_charges cell) in
    let coulG := get_coulG ext kpt_allow false (self_gs self) (Gv g) in
    let coulG := zip_with fmul coulG (kws g) in
    let aoaux := ft_ao ext nuccell (Gv g) in
    (zip_with cscale (contract_charge charge aoaux) coulG, vj).

(** The body of [for k, aoao in enumerate(aoaoks)]: the new [vj[k]]. *)
Definition nuc_accumulate (vG : list complex) (kpt : vec3)
           (aoao : list (list complex)) (vjk : list complex) : list complex :=
  if gamma_point ext kpt then
    let vjk := imap (fun x v =>
                       cadd_real v (dot_col_real (map re vG) (map (map re) aoao) x))
                    vjk in
    imap (fun x v =>
            cadd_real v (dot_col_real (map im vG) (map (map im) aoao) x))
         vjk
  else
    imap (fun x v => cadd v (dot_col_cplx (map conj vG) aoao x)) vjk.

(** One item [(aoaoks, p0, p1)] of the [ft_loop]: [vj[k]] is updated for
    every [k] that [aoaoks] has (one per k-point). *)
Definition nuc_block (vG : list complex) (kpts_lst : list vec3)
           (vj : list (list complex)) (it : ft_item) : list (list complex) :=
  imap (fun k vjk =>
          match nth_error (ft_dat it) k, nth_error kpts_lst k with
          | Some aoao, Some kpt =>
              nuc_accumulate (slice vG (ft_start it) (ft_stop it)) kpt aoao vjk
          | _, _ => vjk
          end)
       vj.

(** What [get_nuc] and [get_pp] return: one matrix or a list of matrices. *)
Inductive mats : Type :=
| Bare (m : matrix)
| Batch (l : list matrix).

(** [kpts is None or numpy.shape(kpts) == (3,)] *)
Definition single_kpt (kpts : option ndarray) : bool :=
  match kpts with
  | None => true
  | Some a => shape_is_3 a
  end.

(** [kpts_lst]: [numpy.zeros((1,3))] or [numpy.reshape(kpts, (-1,3))] *)
Definition kpts_rows (kpts : option ndarray) : result (list vec3) :=
  match kpts with
  | None => Ok [zeros3]
  | Some a => reshape_m1_3 a
  end.

(** [x = x[0]] when a single k-point was given *)
Definition unwrap (single : bool) (l : list matrix) : result mats :=
  if single then
    match l with
    | m :: _ => Ok (Bare m)
    | [] => Raise IndexError
    end
  else Ok (Batch l).

(** The last loop of [get_nuc]: expand the packed rows. *)
Definition nuc_unpack (kpts_lst : list vec3) (vj : list (list complex))
  : list matrix :=
  imap (fun k kpt =>
          let vjk := nth k vj [] in
          if gamma_point ext kpt
          then RMat (unpack_tril (fun x => x) f0 (map re vjk))
          else CMat (unpack_tril conj c0 vjk))
       kpts_lst.

(** [max_memory = max(2000, mydf.max_memory-lib.current_memory()[0])] *)
Definition nuc_max_memory (self : AFTDF) : float :=
  py_max 2000 (PrimFloat.sub (self_max_memory self) (current_memory ext)).

(** The body of [get_nuc] from [kpts_lst] to [vj_kpts], with the method
    [mydf._int_nuc_vloc] explicit. *)
Definition nuc_kpts
           (int_nuc_vloc : AFTDF -> NucCell -> list vec3 -> list (list complex))
           (self : AFTDF) (kpts_lst : list vec3) : result (list matrix) :=
  let cell := self_cell self in
  let g := get_Gv_weights cell (self_gs self) in
  let kpt_allow := zeros3 in
  let '(vG, vj) := nuc_density int_nuc_vloc self g kpts_lst in
  let max_memory := nuc_max_memory self in
  items <- result_of_gen
             (ft_loop self (Some (self_gs self)) kpt_allow
                      (Some (arr_of_rows kpts_lst)) None max_memory S2) ;;
  let vj := fold_left (nuc_block vG kpts_lst) items vj in
  Ok (nuc_unpack kpts_lst vj).

(** [get_nuc(mydf, kpts)] *)
Definition get_nuc_with
           (int_nuc_vloc : AFTDF -> NucCell -> list vec3 -> list (list complex))
           (self : AFTDF) (kpts : option ndarray) : result mats :=
  kpts_lst <- kpts_rows kpts ;;
  vj_kpts <- nuc_kpts int_nuc_vloc self kpts_lst ;;
  unwrap (single_kpt kpts) vj_kpts.

Definition get_nuc : AFTDF -> option ndarray -> result mats :=
  get_nuc_with _int_nuc_vloc.

(** [get_pp_loc_part1 = get_nuc] *)
Definition get_pp_loc_part1 := get_nuc.

(** ** Pseudopotential *)

(** [a + b] on two arrays: real with real stays real, anything with a
    complex array is complex. *)
Definition to_cplx (m : matrix) : list (list complex) :=
  match m with
  | RMat r => map (map (fun x => Cx x f0)) r
  | CMat c => c
  end.

Definition madd (a b : matrix) : matrix :=
  match a, b with
  | RMat x, RMat y => RMat (zip_with (zip_with fadd) x y)
  | _, _ => CMat (zip_with (zip_with cadd) (to_cplx a) (to_cplx b))
  end.

(** [a += b] in place: [a] keeps its dtype, and numpy refuses to cast a
    complex right-hand side into a real array. *)
Definition iadd (a b : matrix) : result matrix :=
  match a, b with
  | RMat _, CMat _ => Raise TypeError
  | _, _ => Ok (madd a b)
  end.

(** [for k in range(nkpts): vpp[k] += vloc1[k] + vloc2[k]] *)
Fixpoint pp_sum (nkpts : nat) (k : nat) (vpp vloc1 vloc2 : list matrix)
  : result (list matrix) :=
  match nkpts with
  | O => Ok vpp
  | S n =>
      match nth_error vpp k, nth_error vloc1 k, nth_error vloc2 k with
      | Some p, Some a, Some b =>
          p' <- iadd p (madd a b) ;;
          pp_sum n (S k) (firstn k vpp ++ p' :: skipn (S k) vpp) vloc1 vloc2
      | _, _, _ => Raise IndexError
      end
  end.

(** [get_pp(mydf, kpts)] *)
Definition get_pp (self : AFTDF) (kpts : option ndarray) : result mats :=
  kpts_lst <- kpts_rows kpts ;;
  let nkpts := length kpts_lst in
  r <- get_nuc self (Some (arr_of_rows kpts_lst)) ;;
  match r with
  | Bare _ => Raise IndexError   (* not reached: kpts_lst has shape (n,3) *)
  | Batch vloc1 =>
      let vloc2 := get_pp_loc_part2 ext kpts_lst in
      let vpp := get_pp_nl ext kpts_lst in
      vpp <- pp_sum nkpts 0 vpp vloc1 vloc2 ;;
      unwrap (single_kpt kpts) vpp
  end.

(** ** J/K dispatch *)

(** A Python value handed to or returned by [aft_jk]. *)
Inductive pyval : Type :=
| PNone
| PMat (m : matrix)
| PMats (l : list matrix).

(** The functions of [aft_jk] that [get_jk] calls. *)
Record AftJk : Type := {
  aft_jk_get_jk : AFTDF -> pyval -> Z -> ndarray -> option ndarray ->
                  bool -> bool -> option String.string -> pyval * pyval;
  aft_jk_get_k_kpts : AFTDF -> pyval -> Z -> ndarray -> option ndarray ->
                      option String.string -> pyval;
  aft_jk_get_j_kpts : AFTDF -> pyval -> Z -> ndarray -> option ndarray -> pyval
}.

Variable aft_jk : AftJk.

(** The k-points [get_jk] works with when none are given. *)
Definition jk_kpts (self : AFTDF) (kpts : option ndarray) : ndarray :=
  match kpts with
  | None =>
      if all_zero (self_kpts self) then arr_of_vec3 zeros3 else self_kpts self
  | Some k => k
  end.

(** [AFTDF.get_jk(dm, hermi, kpts, kpts_band, with_j, with_k, exxdiv)] *)
Definition get_jk (self : AFTDF) (dm : pyval) (hermi : Z)
           (kpts kpts_band : option ndarray) (with_j with_k : bool)
           (exxdiv : option String.string) : pyval * pyval :=
  let kpts := jk_kpts self kpts in
  if shape_is_3 kpts then
    aft_jk_get_jk aft_jk self dm hermi kpts kpts_band with_j with_k exxdiv
  else
    let vj := PNone in
    let vk := PNone in
    let vk := if with_k
              then aft_jk_get_k_kpts aft_jk self dm hermi kpts kpts_band exxdiv
              else vk in
    let vj := if with_j
              then aft_jk_get_j_kpts aft_jk self dm hermi kpts kpts_band
              else vj in
    (vj, vk).

End Model.

Arguments complex F : clear implicits.
Arguments vec3 F : clear implicits.
Arguments ndarray F : clear implicits.
Arguments matrix F : clear implicits.
Arguments mats F : clear implicits.
Arguments pyval F : clear implicits.
Arguments grid F : clear implicits.
Arguments Cell F : clear implicits.
Arguments NucCell F : clear implicits.
Arguments FakeNuc F : clear implicits.
Arguments Extern F : clear implicits.
Arguments AFTDF F : clear implicits.
Arguments AftJk F : clear implicits.
Arguments pw_item F : clear implicits.
Arguments ft_item F : clear implicits.

(** ** The compensating exponent *)

(** [estimate_eta(cell, cutoff)], over the real numbers, as a function of
    [cell.rcut] (all it reads of the cell):
    [max(numpy.log(4*numpy.pi*cell.rcut**5/cutoff)/cell.rcut**2*2, .2)] *)
Definition estimate_eta (rcut cutoff : R) : R :=
  Rmax (ln (4 * PI * rcut ^ 5 / cutoff) / rcut ^ 2 * 2) 0.2.

(** ** Properties to be checked, as the specification words them *)

(** The grid point count of a mesh: the product of [2*gs_i + 1]. *)
Definition grid_point_count (gs : list Z) : Z :=
  fold_right (fun g acc => (2 * g + 1) * acc)%Z 1%Z gs.

(** The block-size bound for a memory ceiling [M], a pair count [N], a block
    size [b] and a grid of [grid_size] points:
    16 <= b*N*16 <= max(M, 16e6*0.75) and b <= min(grid_size, 16384). *)
Definition block_bound (M : Q) (N b grid_size : Z) : Prop :=
  (16 <= b * N * 16)%Z /\
  (inject_Z (b * N * 16) <= Qmax M (16e6 * 0.75))%Q /\
  (b <= Z.min grid_size 16384)%Z.

(** C9 as it is worded: without kpts, the single-k-point routine at
    zeros(3) when every stored k-point is zero, and otherwise the batch
    routines over self.kpts. *)
Definition jk_dispatch_as_claimed {F} `{Float F} (aft_jk : AftJk F)
           (self : AFTDF F) (dm : pyval F) (hermi : Z)
           (kpts_band : option (ndarray F)) (with_j with_k : bool)
           (exxdiv : option String.string) : Prop :=
  get_jk aft_jk self dm hermi None kpts_band with_j with_k exxdiv =
  if all_zero (self_kpts self)
  then aft_jk_get_jk aft_jk self dm hermi (arr_of_vec3 zeros3) kpts_band
                     with_j with_k exxdiv
  else (if with_j
        then aft_jk_get_j_kpts aft_jk self dm hermi (self_kpts self) kpts_band
        else PNone,
        if with_k
        then aft_jk_get_k_kpts aft_jk self dm hermi (self_kpts self) kpts_band
                               exxdiv
        else PNone).

(** C10 as it is worded: with kpts=None the assertion fails for any nonzero
    q. *)
Definition nonzero_q_asserts {F} `{Float F} (ext : Extern F) (self : AFTDF F)
  : Prop :=
  forall gs q shls_slice M aosym,
    q <> zeros3 ->
    ft_loop ext self gs q None shls_slice M aosym = Gen [] (Some AssertZeroQ).

(** Both asserts raise Python's AssertionError. *)
Definition is_assertion (e : exn) : bool :=
  match e with
  | AssertShlsSlice | AssertZeroQ => true
  | _ => false
  end.

(** The matrix for the k-th k-point in what [get_nuc] / [get_pp] return. *)
Definition mats_nth {F} (r : mats F) (k : nat) : option (matrix F) :=
  match r with
  | Bare m => match k with O => Some m | S _ => None end
  | Batch l => nth_error l k
  end.

(** The entry of row [i] and column [j] of a matrix given by rows. *)
Definition entry {A} (m : list (list A)) (i j : nat) : option A :=
  match nth_error m i with
  | Some row => nth_error row j
  | None => None
  end.

Definition is_real {F} (m : matrix F) : bool :=
  match m with
  | RMat _ => true
  | CMat _ => false
  end.

(** The entry of a real or complex matrix as a complex number, a real [x]
    being [x + 0j]. *)
Definition mentry {F} `{Float F} (m : matrix F) (i j : nat)
  : option (complex F) :=
  match m with
  | RMat r => option_map (fun x => Cx x f0) (entry r i j)
  | CMat c => entry c i j
  end.

(** The sum of two entries as numpy forms it: the float64 sum of two real
    entries, and the complex128 sum once one of the two arrays is complex. *)
Definition entry_add {F} `{Float F} (real_a real_b : bool)
           (x y : complex F) : complex F :=
  if real_a && real_b then Cx (fadd (re x) (re y)) f0 else cadd x y.

(** A real matrix equal to its transpose, entry by entry. *)
Definition symmetric {F} `{Float F} (m : list (list F)) : Prop :=
  forall i j : nat, nth j (nth i m []) f0 = nth i (nth j m []) f0.

(** An [n] by [n] matrix. *)
Definition square {A} (n : nat) (m : list (list A)) : Prop :=
  length m = n /\ forall row, In row m -> length row = n.

(** What the [ft_loop] of [get_nuc] needs to raise nothing: at least one
    k-point, a non-empty grid, and a block size that [int] can compute for
    the packed pairs of the default shell slice [(0, nbas, 0, nbas)] (a
    nonzero divisor and a finite budget). *)
Definition ft_ready {F} (ext : Extern F) (self : AFTDF F)
           (nkpts : nat) : Prop :=
  let cell := self_cell self in
  let ngs := grid_ngs (get_Gv_weights cell (self_gs self)) in
  nkpts <> 0%nat /\
  (0 < ngs)%Z /\
  match pair_count (ao_loc_nr cell) S2 (0, nbas cell, 0, nbas cell)%Z with
  | Ok nij =>
      exists b, ft_blksize (nuc_max_memory ext self) nij (Z.of_nat nkpts) ngs
                = Ok b
  | Raise _ => False
  end.

(** ** A small cell for examples *)

(** Exact rational scalars. *)
#[export] Instance Float_Q : Float Q := {|
  f0 := 0%Q;
  fadd := Qplus;
  fsub := Qminus;
  fmul := Qmult;
  fdiv := Qdiv;
  fneg := Qopp;
  fabs := Qabs;
  feqb := Qeq_bool;
  fltb := fun a b => negb (Qle_bool b a);
  flit := fun q => q
|}.

Module Example.

(** A mesh [gs = (1,0,0)]: three grid points along the first axis. *)
Definition ex_grid : grid Q :=
  {| Gv := [(0, 0, 0); (1, 0, 0); (-1, 0, 0)]%Q;
     Gvbase := [[0; 1; -1]; [0]; [0]]%Q;
     kws := [1; 1; 1]%Q |}.

(** One atom of charge 4 with an s and a p shell (nao = 4). *)
Definition ex_cell : Cell Q :=
  {| nbas := 2;
     ao_loc_nr := fun i => if (i =? 0)%Z then 0%Z
                           else if (i =? 1)%Z then 1%Z else 4%Z;
     nao_nr := 4;
     natm := 1;
     atom_charges := [4%Q];
     dimension := 3;
     vol := 64%Q;
     get_Gv_weights := fun _ => ex_grid;
     get_SI := fun gv => [map (fun _ => Cx 1%Q 0%Q) gv];
     pseudo_rloc := fun _ => Some 0.5%Q |}.

(** Collaborators returning constant data of the right shapes. *)
Definition ex_ext : Extern Q :=
  {| is_zero := kpt_is_zero;
     gamma_point := kpt_is_zero;
     current_memory := 100%float;
     ft_aopair_kpts := fun gv _ _ _ _ kpts =>
       repeat (map (fun _ => repeat (Cx 1%Q 1%Q) 10) gv) (shape0 kpts);
     ft_ao := fun _ gv => map (fun _ => [Cx 1%Q 0%Q]) gv;
     get_coulG := fun _ _ _ gv => map (fun _ => 1%Q) gv;
     get_gth_vlocG_part1 := fun gv => [map (fun _ => 2%Q) gv];
     half_sph_norm := 0.28%Q;
     f_pi := 3.14%Q;
     gaussian_int := fun _ e => e;
     aux_e2 := fun _ _ kpts =>
       map (fun _ => repeat [Cx 1%Q 0%Q; Cx 1%Q 0%Q] 10) kpts;
     ovlp_tril := fun kpts => map (fun _ => repeat (Cx 1%Q 0%Q) 10) kpts;
     get_pp_loc_part2 := fun kpts =>
       map (fun _ => CMat (repeat (repeat (Cx 1%Q 0%Q) 4) 4)) kpts;
     get_pp_nl := fun kpts =>
       map (fun _ => CMat (repeat (repeat (Cx 2%Q 0%Q) 4) 4)) kpts |}.

Definition ex_df (eta : Q) (kpts : ndarray Q) : AFTDF Q :=
  {| self_cell := ex_cell;
     self_max_memory := 4000%float;
     self_eta := eta;
     self_kpts := kpts;
     self_gs := [1; 0; 0]%Z;
     self_blockdim := 240 |}.

Definition ex_kpt : vec3 Q := (0.25, 0.25, 0.25)%Q.

Definition ex_jk : AftJk Q :=
  {| aft_jk_get_jk := fun _ dm _ _ _ wj wk _ =>
       (if wj then dm else PNone, if wk then dm else PNone);
     aft_jk_get_k_kpts := fun _ dm _ _ _ _ => dm;
     aft_jk_get_j_kpts := fun _ dm _ _ _ => dm |}.

(** Routines of [aft_jk] whose results tell which one was called. *)
Definition ex_jk_tagged : AftJk Q :=
  {| aft_jk_get_jk := fun _ _ _ _ _ _ _ _ =>
       (PMat (RMat [[1%Q]]), PMat (RMat [[2%Q]]));
     aft_jk_get_k_kpts := fun _ _ _ _ _ _ => PMats [RMat [[3%Q]]];
     aft_jk_get_j_kpts := fun _ _ _ _ _ => PMats [RMat [[4%Q]]] |}.

(** The object of the example on another mesh. *)
Definition ex_df_gs (gs : list Z) : AFTDF Q :=
  {| self_cell := ex_cell;
     self_max_memory := 4000%float;
     self_eta := 1%Q;
     self_kpts := arr_of_rows [zeros3];
     self_gs := gs;
     self_blockdim := 240 |}.

(** The local-part-1 matrices of the example for the batch of the k-point
    (0.25, 0.25, 0.25) and the Gamma point. *)
Definition ex_vloc1 : list (matrix Q) :=
  match get_nuc ex_ext (ex_df 1 (arr_of_rows [zeros3]))
                (Some (arr_of_rows [ex_kpt; zeros3])) with
  | Ok (Batch l) => l
  | _ => []
  end.

End Example.

(** ** The density-fitting loop *)

Section DFLoop.
Context {F : Type} `{Float F}.
Variable ext : Extern F.

(** What [weighted_coulG] and [loop] call besides [pw_loop]. *)
Record ExternDF : Type := {
  (* tools.get_coulG(cell, kpt, exx, mf, gs, Gv) with mf = self *)
  get_coulG_mf : AFTDF F -> vec3 F -> bool -> list Z -> list (vec3 F) -> list F;
  numpy_sqrt : F -> F
}.

Variable edf : ExternDF.

(** [AFTDF.weighted_coulG(kpt, exx, gs)] *)
Definition weighted_coulG (self : AFTDF F) (kpt : vec3 F) (exx : bool)
           (gs : option (list Z)) : list F :=
  let cell := self_cell self in
  let gs := match gs with None => self_gs self | Some gs => gs end in
  let g := get_Gv_weights cell gs in
  let coulG := get_coulG_mf edf self kpt exx gs (Gv g) in
  zip_with fmul coulG (kws g).

(** The body of the [for] of [loop]: the two matrices yielded for one item
    of [pw_loop], [Lpq = lib.transpose(pqkR)] and then
    [Lpq = lib.transpose(pqkI)], each of [p1-p0] rows. *)
Definition loop_body (coulG : list F) (it : pw_item F) : list (list (list F)) :=
  let p0 := pw_start it in
  let p1 := pw_stop it in
  let vG := map (numpy_sqrt edf) (slice coulG p0 p1) in
  let pqkR := map (fun row => zip_with fmul row vG) (pqkR it) in
  let pqkI := map (fun row => zip_with fmul row vG) (pqkI it) in
  [transpose f0 (Z.to_nat (p1 - p0)) pqkR;
   transpose f0 (Z.to_nat (p1 - p0)) pqkI].

(** [AFTDF.loop()]: the generator of the real-valued factor matrices over
    [self.pw_loop(aosym='s2', blksize=self.blockdim)].  The buffer [Lpq] is
    reused from one item to the next in the source; an item here is its
    content when it is yielded. *)
Definition loop (self : AFTDF F) : gen (list (list F)) :=
  let coulG := weighted_coulG self zeros3 false None in
  gen_of_result (
    items <- result_of_gen
               (pw_loop ext self None None None None 2000 S2
                        (Some (self_blockdim self))) ;;
    Ok (flat_map (loop_body coulG) items)).

End DFLoop.

Arguments ExternDF F : clear implicits.

(** ** Ranges of grid points *)

(** The ranges [(p0, p1)] of [l], in order, cut [a, b) into consecutive
    non-empty pieces. *)
Fixpoint tiles (a b : Z) (l : list (Z * Z)) : Prop :=
  match l with
  | [] => a = b
  | (p0, p1) :: l' => p0 = a /\ (a < p1)%Z /\ tiles p1 b l'
  end.

Definition pw_range {F} (it : pw_item F) : Z * Z := (pw_start it, pw_stop it).
Definition ft_range {F} (it : ft_item F) : Z * Z := (ft_start it, ft_stop it).

(** The number of grid points of a list of ranges. *)
Definition range_points (l : list (Z * Z)) : Z :=
  fold_right (fun p acc => (snd p - fst p + acc)%Z) 0%Z l.

(** The number of rows of the matrices of a list. *)
Definition total_rows {A} (l : list (list (list A))) : Z :=
  fold_right (fun m acc => (Z.of_nat (length m) + acc)%Z) 0%Z l.

(** The number of orbital pairs [i >= j] with [i0 <= i < i1], counted one row
    of the triangle at a time. *)
Definition triangle_rows (i0 i1 : nat) : Z :=
  fold_right (fun i acc => (Z.of_nat i + 1 + acc)%Z) 0%Z (seq i0 (i1 - i0)).

Module ExampleDF.
Import Example.

Definition ex_edf : ExternDF Q :=
  {| get_coulG_mf := fun _ _ _ _ gv => map (fun _ => 4%Q) gv;
     numpy_sqrt := fun x => (x / 2)%Q |}.

End ExampleDF.

(** * Block sizes *)

Module BlockSize.

Lemma py_int_not_assert (x : float) : py_int x <> Raise AssertShlsSlice.
Proof.
  unfold py_int. destruct (Prim2SF x); discriminate.
Qed.

(** The block size of [pw_loop] is [int] of the budget between the floor and
    the ceiling. *)
Lemma pw_blksize_of_int (M : float) (N t : Z) :
  py_int (pw_budget M N) = Ok t ->
  pw_blksize M N = Ok (Z.min (Z.max 16 t) 16384).
Proof.
  intros E. unfold pw_blksize. rewrite E. reflexivity.
Qed.

Lemma ft_blksize_of_int (M : float) (N nkpts ngs t : Z) :
  py_int (ft_budget M N nkpts) = Ok t ->
  ft_blksize M N nkpts ngs = Ok (Z.min (Z.min (Z.max 16 t) ngs) 16384).
Proof.
  intros E. unfold ft_blksize. rewrite E. reflexivity.
Qed.

(** A block size that was computed is within the clamps. *)
Lemma pw_blksize_range (M : float) (N b : Z) :
  pw_blksize M N = Ok b -> (16 <= b <= 16384)%Z.
Proof.
  unfold pw_blksize. destruct (py_int (pw_budget M N)) as [t | e]; cbn [bind];
    intros E; [| discriminate].
  injection E as <-. lia.
Qed.

Lemma ft_blksize_range (M : float) (N nkpts ngs b : Z) :
  ft_blksize M N nkpts ngs = Ok b ->
  (Z.min 16 ngs <= b <= Z.min ngs 16384)%Z.
Proof.
  unfold ft_blksize.
  destruct (py_int (ft_budget M N nkpts)) as [t | e]; cbn [bind];
    intros E; [| discriminate].
  injection E as <-. lia.
Qed.

(** C1, as amended: for a pair count N >= 1, a k-point count >= 1 and a
    non-empty grid, when [int] returns t on the float64 quotient
    max_memory*1e6*.75/16/N of pw_loop and t' on the quotient
    max_memory*.9e6/(N*nkpts*16) of ft_loop: pw_loop's block size (no
    explicit blksize) is b = min(max(16, t), 16384) and ft_loop's is
    b' = min(max(16, t'), grid_size, 16384); so 16 <= b <= 16384 and
    min(16, grid_size) <= b' <= min(grid_size, 16384), both satisfy
    16 <= b*N*16, the block does not exceed the integer part of the budget
    quotient once that is at least 16 (b <= t, b' <= t'), and below that it
    is the floor, b = 16 and b' = min(16, grid_size), whatever the memory
    ceiling. *)
Theorem blksize_bounds (M : float) (N nkpts ngs tp tf : Z) :
  (0 < N)%Z -> (0 < nkpts)%Z -> (0 < ngs)%Z ->
  py_int (pw_budget M N) = Ok tp ->
  py_int (ft_budget M N nkpts) = Ok tf ->
  exists bp bf : Z,
    pw_blksize M N = Ok bp /\
    ft_blksize M N nkpts ngs = Ok bf /\
    bp = Z.min (Z.max 16 tp) 16384 /\
    bf = Z.min (Z.min (Z.max 16 tf) ngs) 16384 /\
    (16 <= bp <= 16384)%Z /\
    (Z.min 16 ngs <= bf <= Z.min ngs 16384)%Z /\
    (16 <= bp * N * 16)%Z /\
    (16 <= bf * N * 16)%Z /\
    (16 <= tp -> bp <= tp)%Z /\
    (16 <= tf -> bf <= tf)%Z /\
    (tp <= 16 -> bp = 16)%Z /\
    (tf <= 16 -> bf = Z.min 16 ngs)%Z.
Proof.
  intros HN Hk Hg Ep Ef.
  exists (Z.min (Z.max 16 tp) 16384), (Z.min (Z.min (Z.max 16 tf) ngs) 16384).
  split; [exact (pw_blksize_of_int M N Ep) |].
  split; [exact (ft_blksize_of_int M N nkpts ngs Ef) |].
  split; [reflexivity |]. split; [reflexivity |].
  split; [lia |]. split; [lia |]. split; [nia |]. split; [nia |].
  split; [lia |]. split; [lia |]. split; lia.
Qed.

(** The default budget of 2000 MB on the mesh (10,10,10) with 36 pairs. *)
Lemma blksize_bounds_witness :
  exists bp bf : Z,
    pw_blksize 2000 36 = Ok bp /\
    ft_blksize 2000 36 1 9261 = Ok bf /\
    bp = Z.min (Z.max 16 2604166) 16384 /\
    bf = Z.min (Z.min (Z.max 16 3125000) 9261) 16384 /\
    (16 <= bp <= 16384)%Z /\
    (Z.min 16 9261 <= bf <= Z.min 9261 16384)%Z /\
    (16 <= bp * 36 * 16)%Z /\
    (16 <= bf * 36 * 16)%Z /\
    (16 <= 2604166 -> bp <= 2604166)%Z /\
    (16 <= 3125000 -> bf <= 3125000)%Z /\
    (2604166 <= 16 -> bp = 16)%Z /\
    (3125000 <= 16 -> bf = Z.min 16 9261)%Z.
Proof.
  apply (@blksize_bounds 2000 36 1 9261 2604166 3125000);
    [lia | lia | lia | reflexivity | reflexivity].
Defined.

(** C1 as stated fails.  With max_memory = 1 (MB) and 100000 pairs both
    loops fall back to the floor of 16 points, whose 25.6e6 bytes exceed
    max(M, 16e6*0.75) whether M is read in MB (1) or in bytes (1e6); and on
    the mesh (10,10,10) (9261 points) with 100 pairs and the default 2000 MB
    pw_loop takes 16384 points, more than the grid has. *)
Lemma blksize_bound_fails :
  pw_blksize 1 100000 = Ok 16%Z /\
  ft_blksize 1 100000 1 9261 = Ok 16%Z /\
  ~ block_bound 1 100000 16 9261 /\
  ~ block_bound 1e6 100000 16 9261 /\
  pw_blksize 2000 100 = Ok 16384%Z /\
  ~ block_bound 2000 100 16384 9261.
Proof.
  split; [reflexivity |]. split; [reflexivity |].
  split; [| split; [| split; [reflexivity |]]].
  - intros (_ & Hmem & _). vm_compute in Hmem. apply Hmem. reflexivity.
  - intros (_ & Hmem & _). vm_compute in Hmem. apply Hmem. reflexivity.
  - intros (_ & _ & Hgrid). vm_compute in Hgrid. apply Hgrid. reflexivity.
Qed.

End BlockSize.

(** * The compensating exponent *)

Module Eta.
Import Lra.
Local Open Scope R_scope.

Lemma ln_ratio_antitone (a c1 c2 : R) :
  0 < a -> 0 < c1 -> c1 <= c2 -> ln (a / c2) <= ln (a / c1).
Proof.
  intros Ha Hc1 Hc.
  destruct Hc as [Hlt | Heq]; [| subst c2; right; reflexivity].
  left. apply ln_increasing.
  - apply Rdiv_lt_0_compat; lra.
  - unfold Rdiv. apply Rmult_lt_compat_l; [exact Ha |].
    apply Rinv_lt_contravar; [| exact Hlt].
    apply Rmult_lt_0_compat; lra.
Qed.

(** C5: the exponent never falls below the floor 0.2, whatever the cell and
    the cutoff; and for a fixed cutoff radius rcut > 0 it does not decrease
    when the cutoff tightens (c1 <= c2 gives eta(c2) <= eta(c1)). *)
Theorem estimate_eta_floor_monotone :
  (forall rcut cutoff : R, 0.2 <= estimate_eta rcut cutoff) /\
  (forall rcut c1 c2 : R,
      0 < rcut -> 0 < c1 -> c1 <= c2 ->
      estimate_eta rcut c2 <= estimate_eta rcut c1).
Proof.
  split.
  - intros rcut cutoff. unfold estimate_eta. apply Rmax_r.
  - intros rcut c1 c2 Hr Hc1 Hc. unfold estimate_eta.
    apply Rle_max_compat_r.
    assert (Hr2 : 0 < rcut ^ 2) by (apply pow_lt; exact Hr).
    assert (Hr5 : 0 < rcut ^ 5) by (apply pow_lt; exact Hr).
    assert (Ha : 0 < 4 * PI * rcut ^ 5).
    { apply Rmult_lt_0_compat; [| exact Hr5].
      apply Rmult_lt_0_compat; [lra | apply PI_RGT_0]. }
    pose proof (ln_ratio_antitone Ha Hc1 Hc) as Hln.
    apply Rmult_le_compat_r; [lra |].
    unfold Rdiv at 1 3.
    apply Rmult_le_compat_r; [| exact Hln].
    left. apply Rinv_0_lt_compat. exact Hr2.
Qed.

(** The default cutoff 1e-12 against the looser 1e-8, at rcut = 10. *)
Lemma estimate_eta_floor_monotone_witness :
  0.2 <= estimate_eta 10 1e-12 /\
  estimate_eta 10 1e-8 <= estimate_eta 10 1e-12.
Proof.
  split.
  - apply (proj1 estimate_eta_floor_monotone).
  - apply (proj2 estimate_eta_floor_monotone); lra.
Defined.

End Eta.

(** * The generators' preconditions and the dispatchers *)

Section Dispatch.
Context {F : Type} `{Float F}.
Variable ext : Extern F.

Lemma bind_raise {A B} (r : result A) (k : A -> result B) (e : exn) :
  bind r k = Raise e -> r = Raise e \/ exists a, r = Ok a /\ k a = Raise e.
Proof.
  destruct r as [a | e']; cbn; intros E.
  - right. exists a. split; [reflexivity | exact E].
  - left. congruence.
Qed.

Lemma gen_of_result_stopped {A} (r : result (list A)) (e : exn) :
  stopped (gen_of_result r) = Some e -> r = Raise e.
Proof.
  destruct r as [l | e']; cbn; intros E; [discriminate | congruence].
Qed.

Lemma prange_not_assert (a b c : Z) : prange a b c <> Raise AssertShlsSlice.
Proof.
  unfold prange. destruct (c =? 0)%Z; [discriminate |].
  destruct (c <? 0)%Z; discriminate.
Qed.

Lemma pair_count_s2_assert (ao_loc : Z -> Z) (s0 s1 s2 s3 : Z) :
  s2 <> 0%Z -> pair_count ao_loc S2 (s0, s1, s2, s3) = Raise AssertShlsSlice.
Proof.
  intros Hs. unfold pair_count.
  destruct (Z.eqb_spec s2 0) as [E | _]; [contradiction | reflexivity].
Qed.

Lemma pair_count_slice0 (ao_loc : Z -> Z) (aosym : aosym_t) (s0 s1 s3 : Z) :
  pair_count ao_loc aosym (s0, s1, 0%Z, s3) <> Raise AssertShlsSlice.
Proof.
  unfold pair_count. destruct aosym; [discriminate |].
  change (0 =? 0)%Z with true. cbv iota. discriminate.
Qed.

Ltac bind_case E x Ex :=
  apply bind_raise in E; destruct E as [E | (x & Ex & E)].

(** With a zero second-range start, [pw_loop] never stops on the
    shell-slice assertion. *)
Lemma pw_loop_slice0 (self : AFTDF F) gs kk q (s0 s1 s3 : Z) M aosym blk :
  stopped (pw_loop ext self gs kk q (Some (s0, s1, 0%Z, s3)) M aosym blk)
  <> Some AssertShlsSlice.
Proof.
  intros E. apply gen_of_result_stopped in E.
  destruct kk as [[kpti kptj] |]; cbv zeta beta in E;
    (bind_case E nij Enij; [exact (pair_count_slice0 _ _ _ _ _ E) |];
     bind_case E bs Ebs;
     [ destruct blk; [discriminate |];
       bind_case E b Eb; [| discriminate];
       unfold pw_blksize in E; bind_case E t Et;
       [exact (BlockSize.py_int_not_assert _ E) | discriminate]
     | destruct bs as [b sub]; cbv beta iota in E;
       bind_case E blocks Eblocks;
       [exact (prange_not_assert _ _ _ E) | discriminate] ]).
Qed.

Lemma ft_loop_slice0 (self : AFTDF F) gs q kpts (s0 s1 s3 : Z) M aosym :
  stopped (ft_loop ext self gs q kpts (Some (s0, s1, 0%Z, s3)) M aosym)
  <> Some AssertShlsSlice.
Proof.
  intros E. apply gen_of_result_stopped in E.
  cbv zeta beta in E.
  bind_case E k Ek.
  { unfold ft_kpts in E. destruct kpts; [discriminate |].
    destruct (is_zero ext q); discriminate. }
  bind_case E nij Enij; [exact (pair_count_slice0 _ _ _ _ _ E) |].
  bind_case E b Eb.
  { unfold ft_blksize in E. bind_case E t Et;
      [exact (BlockSize.py_int_not_assert _ E) | discriminate]. }
  bind_case E blocks Eblocks;
    [exact (prange_not_assert _ _ _ E) | discriminate].
Qed.

(** C6: with packed symmetry ('s2') and a shell slice whose second-range
    start is nonzero, pw_loop and ft_loop stop on an assertion error with
    nothing yielded: the shell-slice assertion, or in ft_loop the earlier
    assertion on q when kpts is None and q is not zero.  With a zero
    second-range start (given or by default) the shell-slice assertion is
    never what stops either generator. *)
Theorem packed_slice_assertion :
  (forall (self : AFTDF F) gs kk q qf kpts (s0 s1 s2 s3 : Z) M blk,
      s2 <> 0%Z ->
      pw_loop ext self gs kk q (Some (s0, s1, s2, s3)) M S2 blk
      = Gen [] (Some AssertShlsSlice) /\
      exists e,
        ft_loop ext self gs qf kpts (Some (s0, s1, s2, s3)) M S2
        = Gen [] (Some e) /\
        is_assertion e = true /\
        e = match ft_kpts ext self qf kpts with
            | Ok _ => AssertShlsSlice
            | Raise _ => AssertZeroQ
            end) /\
  (forall (self : AFTDF F) gs kk q qf kpts (s0 s1 s3 : Z) M aosym blk,
      stopped (pw_loop ext self gs kk q (Some (s0, s1, 0%Z, s3)) M aosym blk)
      <> Some AssertShlsSlice /\
      stopped (ft_loop ext self gs qf kpts (Some (s0, s1, 0%Z, s3)) M aosym)
      <> Some AssertShlsSlice /\
      stopped (pw_loop ext self gs kk q None M aosym blk)
      <> Some AssertShlsSlice /\
      stopped (ft_loop ext self gs qf kpts None M aosym)
      <> Some AssertShlsSlice).
Proof.
  split.
  - intros self gs kk q qf kpts s0 s1 s2 s3 M blk Hs. split.
    + unfold pw_loop. destruct kk as [[kpti kptj] |]; cbv zeta beta;
        rewrite (pair_count_s2_assert _ s0 s1 s3 Hs); reflexivity.
    + unfold ft_loop. cbv zeta beta.
      destruct (ft_kpts ext self qf kpts) as [k | e] eqn:Ek; cbn [bind].
      * exists AssertShlsSlice.
        rewrite (pair_count_s2_assert _ s0 s1 s3 Hs). repeat split.
      * exists AssertZeroQ.
        assert (e = AssertZeroQ) as ->.
        { unfold ft_kpts in Ek. destruct kpts; [discriminate |].
          destruct (is_zero ext qf); congruence. }
        repeat split.
  - intros self gs kk q qf kpts s0 s1 s3 M aosym blk.
    split; [apply pw_loop_slice0 |]. split; [apply ft_loop_slice0 |].
    split; [apply pw_loop_slice0 | apply ft_loop_slice0].
Qed.

(** C10, as amended: ft_loop called with kpts=None asserts is_zero(q), the
    test abs(q).sum() < 1e-6 of kpt_misc: when the sum of the absolute
    values of the components of q is not below 1e-6 the generator stops on
    the assertion with nothing yielded, and when it is below 1e-6 (q zero
    within that tolerance) the call is the one with the stored self.kpts as
    the k-point batch. *)
Theorem ft_loop_default_kpts (self : AFTDF F) gs (q : vec3 F) shls_slice M
        aosym :
  (forall v, is_zero ext v = kpt_is_zero v) ->
  ft_loop ext self gs q None shls_slice M aosym =
  if fltb (fadd (fadd (fabs (fst (fst q))) (fabs (snd (fst q))))
                (fabs (snd q)))
          (flit 1e-6)
  then ft_loop ext self gs q (Some (self_kpts self)) shls_slice M aosym
  else Gen [] (Some AssertZeroQ).
Proof.
  intros Hz. unfold ft_loop, ft_kpts. rewrite Hz.
  destruct q as [[a b] c]. cbn [kpt_is_zero fst snd].
  destruct (fltb (fadd (fadd (fabs a) (fabs b)) (fabs c)) (flit 1e-6));
    reflexivity.
Qed.

Variable aft_jk : AftJk F.

(** C9, as amended: with kpts=None, get_jk runs the single-k-point routine
    at zeros(3), of shape (3,), when all stored k-points are zero, and
    returns what it returns; otherwise it takes the stored self.kpts and
    runs the single-k-point routine on them when they have shape (3,), and
    only for another shape the batch routines over self.kpts, J being None
    without with_j and K being None without with_k. *)
Theorem get_jk_default_kpts (self : AFTDF F) dm hermi kpts_band
        (with_j with_k : bool) exxdiv :
  shape_is_3 (arr_of_vec3 (@zeros3 F _)) = true /\
  get_jk aft_jk self dm hermi None kpts_band with_j with_k exxdiv =
  if all_zero (self_kpts self)
  then aft_jk_get_jk aft_jk self dm hermi (arr_of_vec3 zeros3) kpts_band
                     with_j with_k exxdiv
  else if shape_is_3 (self_kpts self)
  then aft_jk_get_jk aft_jk self dm hermi (self_kpts self) kpts_band
                     with_j with_k exxdiv
  else (if with_j
        then aft_jk_get_j_kpts aft_jk self dm hermi (self_kpts self) kpts_band
        else PNone,
        if with_k
        then aft_jk_get_k_kpts aft_jk self dm hermi (self_kpts self) kpts_band
                               exxdiv
        else PNone).
Proof.
  split; [reflexivity |].
  unfold get_jk, jk_kpts.
  destruct (all_zero (self_kpts self)); [reflexivity |].
  destruct (shape_is_3 (self_kpts self)); reflexivity.
Qed.

(** ** Wrap-around *)

Lemma pow2_pos (w : Z) : (0 <= w -> 0 < 2 ^ w)%Z.
Proof. intros Hw. apply Z.pow_pos_nonneg; lia. Qed.

Lemma wrap_mod (w z : Z) :
  (0 <= w)%Z -> (wrap w z mod 2 ^ w = z mod 2 ^ w)%Z.
Proof.
  intros Hw. unfold wrap. pose proof (pow2_pos Hw) as Hm.
  rewrite Zminus_mod_idemp_l. f_equal. lia.
Qed.

Lemma wrap_eq (w a b : Z) :
  (0 <= w)%Z -> (a mod 2 ^ w = b mod 2 ^ w)%Z -> wrap w a = wrap w b.
Proof.
  intros Hw E. unfold wrap. f_equal.
  rewrite <- (Zplus_mod_idemp_l a), <- (Zplus_mod_idemp_l b), E. reflexivity.
Qed.

Lemma wrap_small (w z : Z) :
  (0 < w)%Z -> (- 2 ^ (w - 1) <= z < 2 ^ (w - 1))%Z -> wrap w z = z.
Proof.
  intros Hw Hz. unfold wrap.
  assert (E : (2 ^ w = 2 * 2 ^ (w - 1))%Z).
  { replace w with (Z.succ (w - 1)) at 1 by lia. apply Z.pow_succ_r. lia. }
  rewrite Z.mod_small by lia. lia.
Qed.

Lemma congr_wrap (w z : Z) : (0 <= w)%Z -> congr w (wrap w z) z.
Proof. apply wrap_mod. Qed.

Lemma congr_mul (w a a' b b' : Z) :
  (0 <= w)%Z -> congr w a a' -> congr w b b' -> congr w (a * b) (a' * b').
Proof.
  unfold congr. intros Hw Ea Eb.
  assert (Hm : (2 ^ w <> 0)%Z) by (apply Z.pow_nonzero; lia).
  rewrite (Z.mul_mod a b), (Z.mul_mod a' b') by exact Hm.
  rewrite Ea, Eb. reflexivity.
Qed.

(** The int64 product of [numpy.prod] is the exact product, reduced. *)
Lemma int64_prod (gs : list Z) (a : Z) :
  congr 64 (fold_left (fun acc g => int64 (acc * g))
                      (map (fun g => int64 (int64 (g * 2) + 1)) gs) a)
        (a * grid_point_count gs).
Proof.
  revert a. induction gs as [| g gs IH]; intros a.
  - cbn [map fold_left grid_point_count fold_right]. unfold congr. f_equal. lia.
  - cbn [map fold_left grid_point_count fold_right].
    fold (grid_point_count gs).
    unfold congr in *. rewrite IH.
    replace (a * ((2 * g + 1) * grid_point_count gs))%Z
      with (a * (g * 2 + 1) * grid_point_count gs)%Z by lia.
    apply congr_mul; [lia | | reflexivity].
    unfold int64. fold (congr 64 (wrap 64 (a * wrap 64 (wrap 64 (g * 2) + 1)))
                              (a * (g * 2 + 1))).
    unfold congr. rewrite wrap_mod by lia.
    apply congr_mul; [lia | reflexivity |].
    unfold congr. rewrite wrap_mod by lia.
    rewrite <- Zplus_mod_idemp_l, wrap_mod by lia.
    apply Zplus_mod_idemp_l.
Qed.

Lemma get_naoaux_int64 (self : AFTDF F) :
  get_naoaux self = int64 (2 * grid_point_count (self_gs self)).
Proof.
  unfold get_naoaux. cbv zeta. unfold int64 at 1. apply wrap_eq; [lia |].
  replace (2 * grid_point_count (self_gs self))%Z
    with (1 * grid_point_count (self_gs self) * 2)%Z by lia.
  apply congr_mul; [lia | apply int64_prod | reflexivity].
Qed.

(** C8, as amended: for a mesh of int64 entries, get_naoaux returns twice
    the grid point count 2 * prod(2*gs_i + 1) reduced to a signed 64-bit
    integer, since numpy's int64 arithmetic wraps around; it is exactly
    twice the grid point count whenever that number fits in int64. *)
Theorem get_naoaux_twice_grid (self : AFTDF F) :
  Forall (fun g => - 2 ^ 63 <= g < 2 ^ 63)%Z (self_gs self) ->
  get_naoaux self = int64 (2 * grid_point_count (self_gs self)) /\
  ((- 2 ^ 63 <= 2 * grid_point_count (self_gs self) < 2 ^ 63)%Z ->
   get_naoaux self = (2 * grid_point_count (self_gs self))%Z).
Proof.
  intros _. split; [apply get_naoaux_int64 |].
  intros Hfit. rewrite get_naoaux_int64. apply wrap_small; lia.
Qed.

End Dispatch.

(** * Nuclear attraction *)

Section Nuclear.
Context {F : Type} `{Float F}.
Variable ext : Extern F.

(** ** Lists by index *)

Lemma nth_error_zip_seq {A B} (f : nat -> A -> B) (l : list A) (s k : nat) :
  nth_error (zip_with f (seq s (length l)) l) k =
  match nth_error l k with
  | Some x => Some (f (s + k)%nat x)
  | None => None
  end.
Proof.
  revert s k. induction l as [| x l IH]; intros s k.
  - destruct k; reflexivity.
  - destruct k as [| k]; cbn.
    + rewrite Nat.add_0_r. reflexivity.
    + unfold zip_with in IH. rewrite (IH (S s) k).
      rewrite Nat.add_succ_r. reflexivity.
Qed.

Lemma nth_error_imap {A B} (f : nat -> A -> B) (l : list A) (k : nat) :
  nth_error (imap f l) k =
  match nth_error l k with
  | Some x => Some (f k x)
  | None => None
  end.
Proof.
  unfold imap. apply (nth_error_zip_seq f l 0 k).
Qed.

Lemma length_imap {A B} (f : nat -> A -> B) (l : list A) :
  length (imap f l) = length l.
Proof.
  unfold imap, zip_with. rewrite length_map, length_combine, length_seq.
  apply Nat.min_id.
Qed.

Lemma nth_error_zip_with {A B C} (f : A -> B -> C) (a : list A) (b : list B)
      (k : nat) :
  nth_error (zip_with f a b) k =
  match nth_error a k, nth_error b k with
  | Some x, Some y => Some (f x y)
  | _, _ => None
  end.
Proof.
  unfold zip_with. revert b k. induction a as [| x a IH]; intros b k.
  - destruct k; reflexivity.
  - destruct b as [| y b].
    + destruct k as [| k]; cbn; [reflexivity |].
      destruct (nth_error a k); reflexivity.
    + destruct k as [| k]; cbn; [reflexivity | apply IH].
Qed.

Lemma nth_error_map_seq {A} (f : nat -> A) (n i : nat) :
  nth_error (map f (seq 0 n)) i = if (i <? n)%nat then Some (f i) else None.
Proof.
  rewrite nth_error_map.
  destruct (Nat.ltb_spec i n) as [Hlt | Hge].
  - rewrite nth_error_seq. destruct (Nat.ltb_spec i n); [reflexivity | lia].
  - rewrite (proj2 (nth_error_None _ _)) by (rewrite length_seq; lia).
    reflexivity.
Qed.

Lemma nth_map_seq {A} (f : nat -> A) (d : A) (n i : nat) :
  nth i (map f (seq 0 n)) d = if (i <? n)%nat then f i else d.
Proof.
  destruct (Nat.ltb_spec i n) as [Hlt | Hge].
  - rewrite (nth_indep _ d (f 0%nat)) by (rewrite length_map, length_seq; lia).
    rewrite map_nth, seq_nth by lia. reflexivity.
  - apply nth_overflow. rewrite length_map, length_seq. lia.
Qed.

(** ** The reshape of the k-points *)

Lemma chunk3_rows (rows : list (vec3 F)) :
  chunk3 (flat_map vec3_list rows) = Ok rows.
Proof.
  induction rows as [| [[a b] c] rows IH]; cbn.
  - reflexivity.
  - fold (@vec3_list F). rewrite IH. reflexivity.
Qed.

Lemma kpts_rows_vec3 (v : vec3 F) : kpts_rows (Some (arr_of_vec3 v)) = Ok [v].
Proof. destruct v as [[a b] c]. reflexivity. Qed.

Lemma kpts_rows_batch (rows : list (vec3 F)) :
  kpts_rows (Some (arr_of_rows rows)) = Ok rows.
Proof. apply chunk3_rows. Qed.

Lemma single_kpt_batch (rows : list (vec3 F)) :
  single_kpt (Some (arr_of_rows rows)) = false.
Proof.
  unfold single_kpt, shape_is_3, shape, arr_of_rows. cbn.
  destruct (length rows) as [| [| [| [| n]]]]; reflexivity.
Qed.

(** ** The expansion of a packed triangle *)

Lemma unpack_tril_nth {A} (cj : A -> A) (d : A) (tril : list A) (i j : nat) :
  nth j (nth i (unpack_tril cj d tril) []) d =
  let nd := Nat.sqrt (2 * length tril) in
  if ((i <? nd) && (j <? nd))%nat
  then if (j <=? i)%nat then nth (i * (i + 1) / 2 + j) tril d
       else cj (nth (j * (j + 1) / 2 + i) tril d)
  else d.
Proof.
  unfold unpack_tril. cbv zeta.
  set (nd := Nat.sqrt (2 * length tril)).
  rewrite nth_map_seq.
  destruct (i <? nd)%nat; cbn [andb].
  - rewrite nth_map_seq. reflexivity.
  - destruct j; reflexivity.
Qed.

Lemma unpack_tril_symmetric (tril : list F) :
  symmetric (unpack_tril (fun x => x) f0 tril).
Proof.
  intros i j. rewrite !unpack_tril_nth. cbv zeta.
  set (nd := Nat.sqrt (2 * length tril)).
  rewrite (andb_comm (j <? nd)%nat).
  destruct ((i <? nd) && (j <? nd))%nat; [| reflexivity].
  destruct (Nat.leb_spec j i) as [Hji | Hji];
    destruct (Nat.leb_spec i j) as [Hij | Hij]; try reflexivity; try lia.
  assert (i = j) by lia. subst j. reflexivity.
Qed.

Lemma unpack_tril_square {A} (cj : A -> A) (d : A) (tril : list A) :
  square (Nat.sqrt (2 * length tril)) (unpack_tril cj d tril).
Proof.
  unfold square, unpack_tril. split.
  - rewrite length_map, length_seq. reflexivity.
  - intros row Hin. apply in_map_iff in Hin as (i & <- & _).
    rewrite length_map, length_seq. reflexivity.
Qed.

(** A packed vector of [n(n+1)/2] entries expands to [n] rows. *)
Lemma sqrt_packed (n : nat) : Nat.sqrt (2 * (n * (n + 1) / 2)) = n.
Proof.
  assert (E : (2 * (n * (n + 1) / 2) = n * (n + 1))%nat).
  { assert (Hev : (n * (n + 1)) mod 2 = 0%nat).
    { induction n as [| n IH]; [reflexivity |].
      replace (S n * (S n + 1))%nat with (n * (n + 1) + (n + 1) * 2)%nat by lia.
      rewrite Nat.Div0.mod_add. exact IH. }
    pose proof (Nat.div_mod_eq (n * (n + 1)) 2). lia. }
  rewrite E. apply Nat.sqrt_unique. lia.
Qed.

(** ** The loop of [get_nuc] raises nothing on a ready object *)

Lemma prange_ok (n b : Z) : (0 < b)%Z -> exists l, prange 0 n b = Ok l.
Proof.
  intros Hb. unfold prange.
  destruct (Z.eqb_spec b 0) as [E0 | _]; [lia |].
  destruct (Z.ltb_spec b 0) as [E1 | _]; [lia |].
  eexists. reflexivity.
Qed.

Lemma ft_loop_ready (self : AFTDF F) (rows : list (vec3 F)) (q : vec3 F) :
  ft_ready ext self (length rows) ->
  exists items,
    result_of_gen (ft_loop ext self (Some (self_gs self)) q
                           (Some (arr_of_rows rows)) None
                           (nuc_max_memory ext self) S2) = Ok items.
Proof.
  intros (Hn & Hg & Hb).
  destruct (pair_count (ao_loc_nr (self_cell self)) S2
              (0, nbas (self_cell self), 0, nbas (self_cell self))%Z)
    as [nij | e] eqn:Enij; [| contradiction].
  destruct Hb as (b & Eb).
  pose proof (BlockSize.ft_blksize_range _ _ _ _ Eb) as Hrange.
  destruct (@prange_ok
              (grid_ngs (get_Gv_weights (self_cell self) (self_gs self))) b)
    as (l & El); [lia |].
  unfold ft_loop. cbv zeta beta. cbn [ft_kpts bind]. rewrite Enij. cbn [bind].
  change (py_len (arr_of_rows rows)) with (Z.of_nat (length rows)).
  rewrite Eb. cbn [bind]. rewrite El.
  cbn [bind gen_of_result result_of_gen stopped yielded].
  eexists. reflexivity.
Qed.

Lemma nuc_kpts_ok f (self : AFTDF F) (rows : list (vec3 F)) :
  ft_ready ext self (length rows) ->
  exists vj, nuc_kpts ext f self rows = Ok (nuc_unpack ext rows vj).
Proof.
  intros Hready. unfold nuc_kpts. cbv zeta.
  destruct (nuc_density ext f self _ rows) as [vG vj0].
  destruct (@ft_loop_ready self rows zeros3 Hready) as (items & ->).
  cbn [bind]. eexists. reflexivity.
Qed.

Lemma nuc_unpack_nth (rows : list (vec3 F)) vj (k : nat) :
  nth_error (nuc_unpack ext rows vj) k =
  match nth_error rows k with
  | Some kpt =>
      Some (if gamma_point ext kpt
            then RMat (unpack_tril (fun x => x) f0 (map re (nth k vj [])))
            else CMat (unpack_tril conj c0 (nth k vj [])))
  | None => None
  end.
Proof.
  unfold nuc_unpack. apply nth_error_imap.
Qed.

Lemma unwrap_ok (single : bool) (l : list (matrix F)) :
  l <> [] ->
  exists r, unwrap single l = Ok r /\
            forall k, (single = true -> k = 0%nat) ->
                      mats_nth r k = nth_error l k.
Proof.
  intros Hl. destruct l as [| m l]; [contradiction |].
  destruct single; cbn.
  - exists (Bare m). split; [reflexivity |].
    intros k Hk. rewrite (Hk eq_refl). reflexivity.
  - exists (Batch (m :: l)). split; [reflexivity |]. intros k _. reflexivity.
Qed.


(** The entries of the structure-factor contraction. *)
Lemma contract_SI_nth (SI : list (list (complex F))) (vlocG : list (list F))
      (n j : nat) :
  nth_error (contract_SI SI vlocG n) j =
  if (j <? n)%nat
  then Some (fold_left cadd
               (map (fun p : list (complex F) * list F =>
                       cscale (nth j (fst p) c0) (nth j (snd p) f0))
                    (combine SI vlocG))
               c0)
  else None.
Proof.
  unfold contract_SI. rewrite nth_error_map_seq. reflexivity.
Qed.

(** C7: when eta == 0, entry j of the reciprocal nuclear density, for every
    grid point j that has a quadrature weight w, is
    (- sum_i SI[i][j] * vlocG_part1[i][j]) * w, the sum running over the
    rows of the structure factor from zero: minus the structure factor
    contracted with the local part-1 kernel, times the weights; the packed
    matrices start from zero; and whatever function stands for the method
    _int_nuc_vloc, get_nuc returns the same: the analytic term is not
    evaluated and no auxiliary cell is built. *)
Theorem eta_zero_reciprocal_only (self : AFTDF F) (g : grid F)
        (rows : list (vec3 F)) (kpts : option (ndarray F))
        (f : AFTDF F -> NucCell F -> list (vec3 F) -> list (list (complex F))) :
  feqb (self_eta self) f0 = true ->
  (forall (j : nat) (w : F),
      (j < length (Gv g))%nat ->
      nth_error (kws g) j = Some w ->
      nth_error (fst (nuc_density ext f self g rows)) j =
      Some (cscale
              (cneg (fold_left cadd
                       (map (fun p : list (complex F) * list F =>
                               cscale (nth j (fst p) c0) (nth j (snd p) f0))
                            (combine (get_SI (self_cell self) (Gv g))
                                     (get_gth_vlocG_part1 ext (Gv g))))
                       c0))
              w)) /\
  length (fst (nuc_density ext f self g rows))
  = Nat.min (length (Gv g)) (length (kws g)) /\
  snd (nuc_density ext f self g rows)
  = repeat (repeat c0 (nao_nr (self_cell self)
                       * (nao_nr (self_cell self) + 1) / 2))
           (length rows) /\
  get_nuc_with ext f self kpts = get_nuc ext self kpts.
Proof.
  intros Heta.
  assert (E : nuc_density ext f self g rows =
              (zip_with cscale
                 (map cneg (contract_SI (get_SI (self_cell self) (Gv g))
                                        (get_gth_vlocG_part1 ext (Gv g))
                                        (length (Gv g))))
                 (kws g),
               repeat (repeat c0 (nao_nr (self_cell self)
                                  * (nao_nr (self_cell self) + 1) / 2))
                      (length rows))).
  { unfold nuc_density. cbv zeta. rewrite Heta. reflexivity. }
  rewrite E. cbn [fst snd]. split; [| split; [| split]].
  - intros j w Hj Hw.
    rewrite nth_error_zip_with, nth_error_map, contract_SI_nth, Hw.
    destruct (Nat.ltb_spec j (length (Gv g))) as [_ | Hge]; [| lia].
    reflexivity.
  - unfold zip_with, contract_SI.
    rewrite length_map, length_combine, !length_map, length_seq. reflexivity.
  - reflexivity.
  - unfold get_nuc, get_nuc_with, nuc_kpts, nuc_density. cbv zeta.
    rewrite Heta. reflexivity.
Qed.

End Nuclear.

(** * Pseudopotential *)

Section Pseudopotential.
Context {F : Type} `{Float F}.
Variable ext : Extern F.

Lemma iadd_ok (p x p' : matrix F) : iadd p x = Ok p' -> p' = madd p x.
Proof.
  unfold iadd. destruct p, x; intros E; congruence.
Qed.

(** ** The entries of a sum *)

Lemma entry_zip_with {A B C} (f : A -> B -> C) (x : list (list A))
      (y : list (list B)) (i j : nat) :
  entry (zip_with (zip_with f) x y) i j =
  match entry x i j, entry y i j with
  | Some a, Some b => Some (f a b)
  | _, _ => None
  end.
Proof.
  unfold entry. rewrite nth_error_zip_with.
  destruct (nth_error x i) as [rx |]; [| reflexivity].
  destruct (nth_error y i) as [ry |].
  - apply nth_error_zip_with.
  - destruct (nth_error rx j); reflexivity.
Qed.

Lemma entry_map {A B} (g : A -> B) (x : list (list A)) (i j : nat) :
  entry (map (map g) x) i j = option_map g (entry x i j).
Proof.
  unfold entry. rewrite nth_error_map.
  destruct (nth_error x i) as [rx |]; [| reflexivity].
  cbn [option_map]. apply nth_error_map.
Qed.

Lemma mentry_to_cplx (m : matrix F) (i j : nat) :
  entry (to_cplx m) i j = mentry m i j.
Proof.
  destruct m as [r | c]; cbn [to_cplx mentry]; [apply entry_map | reflexivity].
Qed.

Lemma is_real_madd (a b : matrix F) :
  is_real (madd a b) = is_real a && is_real b.
Proof. destruct a, b; reflexivity. Qed.

(** [a + b], entry by entry. *)
Lemma mentry_madd (a b : matrix F) (i j : nat) :
  mentry (madd a b) i j =
  match mentry a i j, mentry b i j with
  | Some x, Some y => Some (entry_add (is_real a) (is_real b) x y)
  | _, _ => None
  end.
Proof.
  destruct a as [ra | ca], b as [rb | cb];
    cbn [madd mentry is_real to_cplx]; rewrite entry_zip_with, ?entry_map.
  - destruct (entry ra i j), (entry rb i j); reflexivity.
  - destruct (entry ra i j), (entry cb i j); reflexivity.
  - destruct (entry ca i j), (entry rb i j); reflexivity.
  - reflexivity.
Qed.

(** [vpp[k] = x]: one entry replaced, the others and the length kept. *)
Lemma nth_error_assign {A} (l : list A) (k j : nat) (x y : A) :
  nth_error l k = Some y ->
  nth_error (firstn k l ++ x :: skipn (S k) l) j =
  if (j =? k)%nat then Some x else nth_error l j.
Proof.
  intros Hk.
  assert (Hlen : (k < length l)%nat) by (apply nth_error_Some; congruence).
  assert (Hf : length (firstn k l) = k) by (rewrite length_firstn; lia).
  destruct (Nat.eqb_spec j k) as [-> | Hne].
  - rewrite nth_error_app2 by lia. rewrite Hf, Nat.sub_diag. reflexivity.
  - destruct (Nat.lt_ge_cases j k) as [Hlt | Hge].
    + rewrite nth_error_app1 by lia. rewrite nth_error_firstn.
      destruct (Nat.ltb_spec j k); [reflexivity | lia].
    + rewrite nth_error_app2 by lia. rewrite Hf.
      replace (j - k)%nat with (S (j - S k)) by lia. cbn [nth_error].
      rewrite nth_error_skipn. f_equal. lia.
Qed.

Lemma length_assign {A} (l : list A) (k : nat) (x y : A) :
  nth_error l k = Some y ->
  length (firstn k l ++ x :: skipn (S k) l) = length l.
Proof.
  intros Hk.
  assert (Hlen : (k < length l)%nat) by (apply nth_error_Some; congruence).
  rewrite length_app, length_firstn. cbn [length]. rewrite length_skipn. lia.
Qed.

(** The loop [for k in range(nkpts): vpp[k] += vloc1[k] + vloc2[k]], started
    at index [k]: it succeeds when the three inputs have an entry at every
    index it visits and no complex sum goes into a real entry; the entries
    visited become the sums, the others are kept. *)
Lemma pp_sum_spec (vloc1 vloc2 : list (matrix F)) (n : nat) :
  forall (k : nat) (vpp : list (matrix F)),
    (forall j, (k <= j < k + n)%nat ->
       exists p a b p',
         nth_error vpp j = Some p /\ nth_error vloc1 j = Some a /\
         nth_error vloc2 j = Some b /\ iadd p (madd a b) = Ok p') ->
    exists out,
      pp_sum n k vpp vloc1 vloc2 = Ok out /\
      length out = length vpp /\
      (forall j, (j < k \/ k + n <= j)%nat ->
         nth_error out j = nth_error vpp j) /\
      (forall j p a b, (k <= j < k + n)%nat ->
         nth_error vpp j = Some p -> nth_error vloc1 j = Some a ->
         nth_error vloc2 j = Some b ->
         nth_error out j = Some (madd p (madd a b))).
Proof.
  induction n as [| n IH]; intros k vpp Hin.
  - exists vpp. cbn. split; [reflexivity |]. split; [reflexivity |].
    split; intros; [reflexivity | lia].
  - destruct (Hin k ltac:(lia)) as (p & a & b & p' & Ep & Ea & Eb & Ei).
    cbn [pp_sum]. rewrite Ep, Ea, Eb, Ei. cbn [bind].
    set (vpp' := firstn k vpp ++ p' :: skipn (S k) vpp).
    assert (Hnth : forall j, nth_error vpp' j =
                             if (j =? k)%nat then Some p' else nth_error vpp j)
      by (intros j; apply (@nth_error_assign _ vpp k j p' p Ep)).
    destruct (IH (S k) vpp') as (out & Eout & Hlen & Hkeep & Hsum).
    { intros j Hj. destruct (Hin j ltac:(lia)) as (q & a' & b' & q' & E1 & E2).
      exists q, a', b', q'. split; [| exact E2].
      rewrite Hnth. destruct (Nat.eqb_spec j k); [lia | exact E1]. }
    exists out. split; [exact Eout |]. split.
    { rewrite Hlen. apply (@length_assign _ vpp k p' p Ep). }
    split.
    + intros j Hj. rewrite Hkeep by lia. rewrite Hnth.
      destruct (Nat.eqb_spec j k); [lia | reflexivity].
    + intros j q a' b' Hj E1 E2 E3.
      destruct (Nat.eq_dec j k) as [-> | Hne].
      * rewrite Hkeep by lia. rewrite Hnth, Nat.eqb_refl.
        apply iadd_ok in Ei. congruence.
      * apply Hsum; [lia | | exact E2 | exact E3].
        rewrite Hnth. destruct (Nat.eqb_spec j k); [lia | exact E1].
Qed.

(** The call [mydf.get_nuc(kpts_lst)] inside [get_pp]: a batch in, a list
    out. *)
Lemma get_nuc_batch (self : AFTDF F) (rows : list (vec3 F)) :
  get_nuc ext self (Some (arr_of_rows rows)) =
  (l <- nuc_kpts ext (_int_nuc_vloc ext) self rows ;; Ok (Batch l)).
Proof.
  unfold get_nuc, get_nuc_with.
  rewrite kpts_rows_batch, single_kpt_batch. cbn [bind]. reflexivity.
Qed.

(** C3: when get_nuc has returned the local-part-1 matrices and the two
    collaborators supply a matrix for every requested k-point (none complex
    where the nonlocal array is real), get_pp returns, and the matrix m it
    returns for each k-point is the sum of the three inputs at that k-point,
    the nonlocal matrix p, the local-part-1 matrix a and the local-part-2
    matrix b, entry by entry and exactly: m[i][j] = p[i][j] + (a[i][j] +
    b[i][j]) in the code's order of summation, each addition a float64
    addition of real entries or a complex128 addition (componentwise, a real
    entry x counting as x + 0j), and m has the dtype of p. *)
Theorem get_pp_additive (self : AFTDF F) (kpts : option (ndarray F))
        (rows : list (vec3 F)) (vloc1 : list (matrix F)) :
  kpts_rows kpts = Ok rows ->
  rows <> [] ->
  get_nuc ext self (Some (arr_of_rows rows)) = Ok (Batch vloc1) ->
  (forall k, (k < length rows)%nat ->
     exists p a b p',
       nth_error (get_pp_nl ext rows) k = Some p /\
       nth_error vloc1 k = Some a /\
       nth_error (get_pp_loc_part2 ext rows) k = Some b /\
       iadd p (madd a b) = Ok p') ->
  exists r, get_pp ext self kpts = Ok r /\
    forall k, (k < length rows)%nat ->
              (single_kpt kpts = true -> k = 0%nat) ->
      exists p a b m,
        nth_error (get_pp_nl ext rows) k = Some p /\
        nth_error vloc1 k = Some a /\
        nth_error (get_pp_loc_part2 ext rows) k = Some b /\
        mats_nth r k = Some m /\
        m = madd p (madd a b) /\
        is_real m = is_real p /\
        forall (i j : nat) (x y z : complex F),
          mentry p i j = Some x ->
          mentry a i j = Some y ->
          mentry b i j = Some z ->
          mentry m i j =
          Some (entry_add (is_real p) (is_real a && is_real b) x
                          (entry_add (is_real a) (is_real b) y z)).
Proof.
  intros Hrows Hne Hnuc Hin.
  unfold get_pp. rewrite Hrows. cbn [bind]. rewrite Hnuc. cbn [bind].
  destruct (@pp_sum_spec vloc1 (get_pp_loc_part2 ext rows) (length rows) 0
              (get_pp_nl ext rows))
    as (out & -> & Hlen & _ & Hsum).
  { intros j Hj. apply Hin. lia. }
  cbn [bind].
  destruct (@unwrap_ok F (single_kpt kpts) out) as (r & -> & Hr).
  { intros ->. destruct rows as [| v rows]; [contradiction |].
    destruct (Hin 0%nat ltac:(cbn; lia)) as (p & _ & _ & _ & Ep & _).
    apply nth_error_In in Ep. cbn in Hlen.
    destruct (get_pp_nl ext (v :: rows)); [contradiction | discriminate]. }
  exists r. split; [reflexivity |].
  intros k Hk Hsingle.
  destruct (Hin k Hk) as (p & a & b & p' & Ep & Ea & Eb & Ei).
  exists p, a, b, (madd p (madd a b)).
  split; [exact Ep |]. split; [exact Ea |]. split; [exact Eb |].
  split; [rewrite (Hr k Hsingle); apply Hsum; try assumption; lia |].
  split; [reflexivity |]. split.
  - rewrite is_real_madd, is_real_madd.
    unfold iadd in Ei. destruct p, a, b; try discriminate; reflexivity.
  - intros i j x y z Ex Ey Ez.
    rewrite mentry_madd, Ex, mentry_madd, Ey, Ez, is_real_madd. reflexivity.
Qed.


End Pseudopotential.

(** * The theorems on the example cell *)

Module Witness.
Import Example.

Lemma ex_ready (eta : Q) (kpts : ndarray Q) :
  ft_ready ex_ext (ex_df eta kpts) 1.
Proof.
  unfold ft_ready. split; [discriminate |]. split; [reflexivity |].
  exists 3%Z. reflexivity.
Defined.

(** C6 on the example: the slice (0,2,1,2) in packed mode. *)
Lemma packed_slice_assertion_witness :
  pw_loop ex_ext (ex_df 1 (arr_of_rows [zeros3])) None None None
          (Some (0, 2, 1, 2)%Z) 2000 S2 None
  = Gen [] (Some AssertShlsSlice) /\
  exists e,
    ft_loop ex_ext (ex_df 1 (arr_of_rows [zeros3])) None zeros3 None
            (Some (0, 2, 1, 2)%Z) 2000 S2
    = Gen [] (Some e) /\
    is_assertion e = true /\
    e = match ft_kpts ex_ext (ex_df 1 (arr_of_rows [zeros3])) zeros3 None with
        | Ok _ => AssertShlsSlice
        | Raise _ => AssertZeroQ
        end.
Proof.
  apply (proj1 (packed_slice_assertion ex_ext)). discriminate.
Defined.

(** C9 as stated fails: with a single stored k-point (0.25, 0.25, 0.25) of
    shape (3,), not zero, get_jk does not run the batch routines over
    self.kpts but the single-k-point routine. *)
Lemma get_jk_stored_single_kpt :
  all_zero (self_kpts (ex_df 1 (arr_of_vec3 ex_kpt))) = false /\
  get_jk ex_jk_tagged (ex_df 1 (arr_of_vec3 ex_kpt)) (PMats []) 1 None None
         true true None
  = aft_jk_get_jk ex_jk_tagged (ex_df 1 (arr_of_vec3 ex_kpt)) (PMats []) 1
                  (arr_of_vec3 ex_kpt) None true true None /\
  ~ jk_dispatch_as_claimed ex_jk_tagged (ex_df 1 (arr_of_vec3 ex_kpt))
                           (PMats []) 1 None true true None.
Proof.
  split; [reflexivity |]. split; [reflexivity |].
  unfold jk_dispatch_as_claimed. vm_compute. discriminate.
Qed.

(** C10 on the example: q = 0 with the tolerance test of kpt_misc. *)
Lemma ft_loop_default_kpts_witness :
  ft_loop ex_ext (ex_df 1 (arr_of_rows [ex_kpt])) None zeros3 None None 2000 S1
  = if fltb (fadd (fadd (fabs (fst (fst (@zeros3 Q _))))
                        (fabs (snd (fst (@zeros3 Q _)))))
                  (fabs (snd (@zeros3 Q _))))
            (flit 1e-6)
    then ft_loop ex_ext (ex_df 1 (arr_of_rows [ex_kpt])) None zeros3
                 (Some (self_kpts (ex_df 1 (arr_of_rows [ex_kpt])))) None
                 2000 S1
    else Gen [] (Some AssertZeroQ).
Proof.
  apply (@ft_loop_default_kpts Q _ ex_ext (ex_df 1 (arr_of_rows [ex_kpt]))
           None zeros3 None 2000%float S1).
  intros v. reflexivity.
Defined.

(** C10 as stated fails: q = (1e-7, 0, 0) is not zero, is_zero accepts it
    and ft_loop runs with the stored k-points. *)
Lemma ft_loop_small_q_accepted :
  (1e-7, 0, 0)%Q <> @zeros3 Q _ /\
  is_zero ex_ext (1e-7, 0, 0)%Q = true /\
  stopped (ft_loop ex_ext (ex_df 1 (arr_of_rows [ex_kpt])) None
                   (1e-7, 0, 0)%Q None None 2000 S1) = None /\
  ~ nonzero_q_asserts ex_ext (ex_df 1 (arr_of_rows [ex_kpt])).
Proof.
  assert (Hq : (1e-7, 0, 0)%Q <> @zeros3 Q _).
  { intros E. vm_compute in E. discriminate. }
  split; [exact Hq |]. split; [reflexivity |]. split; [reflexivity |].
  intros Hc.
  specialize (Hc None (1e-7, 0, 0)%Q None 2000%float S1 Hq).
  vm_compute in Hc. discriminate.
Qed.

(** C8 on the mesh (10,10,10). *)
Lemma get_naoaux_twice_grid_witness :
  get_naoaux (ex_df_gs [10; 10; 10]%Z)
  = int64 (2 * grid_point_count (self_gs (ex_df_gs [10; 10; 10]%Z))) /\
  ((- 2 ^ 63 <= 2 * grid_point_count (self_gs (ex_df_gs [10; 10; 10]%Z))
    < 2 ^ 63)%Z ->
   get_naoaux (ex_df_gs [10; 10; 10]%Z)
   = (2 * grid_point_count (self_gs (ex_df_gs [10; 10; 10]%Z)))%Z).
Proof.
  apply (@get_naoaux_twice_grid Q (ex_df_gs [10; 10; 10]%Z)).
  repeat constructor; cbn; lia.
Defined.

(** C8 as stated fails: on the mesh (1048576, 1048576, 1048576) the int64
    product wraps around. *)
Lemma get_naoaux_wraps :
  get_naoaux (ex_df_gs [1048576; 1048576; 1048576]%Z) = 26388291649538%Z /\
  (2 * grid_point_count [1048576; 1048576; 1048576]
   = 18446770462001201154)%Z /\
  get_naoaux (ex_df_gs [1048576; 1048576; 1048576]%Z)
  <> (2 * grid_point_count
            (self_gs (ex_df_gs [1048576; 1048576; 1048576]%Z)))%Z.
Proof.
  split; [reflexivity |]. split; [reflexivity |].
  vm_compute. discriminate.
Qed.


(** C7 on the example with eta = 0. *)
Lemma eta_zero_reciprocal_only_witness :
  (forall (j : nat) (w : Q),
      (j < length (Gv ex_grid))%nat ->
      nth_error (kws ex_grid) j = Some w ->
      nth_error (fst (nuc_density ex_ext (fun _ _ _ => [])
                                  (ex_df 0 (arr_of_rows [zeros3])) ex_grid
                                  [ex_kpt])) j =
      Some (cscale
              (cneg (fold_left cadd
                       (map (fun p : list (complex Q) * list Q =>
                               cscale (nth j (fst p) c0) (nth j (snd p) f0))
                            (combine (get_SI ex_cell (Gv ex_grid))
                                     (get_gth_vlocG_part1 ex_ext (Gv ex_grid))))
                       c0))
              w)) /\
  length (fst (nuc_density ex_ext (fun _ _ _ => [])
                           (ex_df 0 (arr_of_rows [zeros3])) ex_grid [ex_kpt]))
  = Nat.min (length (Gv ex_grid)) (length (kws ex_grid)) /\
  snd (nuc_density ex_ext (fun _ _ _ => []) (ex_df 0 (arr_of_rows [zeros3]))
                   ex_grid [ex_kpt])
  = repeat (repeat c0 (nao_nr ex_cell * (nao_nr ex_cell + 1) / 2))
           (length [ex_kpt]) /\
  get_nuc_with ex_ext (fun _ _ _ => []) (ex_df 0 (arr_of_rows [zeros3]))
               (Some (arr_of_vec3 ex_kpt))
  = get_nuc ex_ext (ex_df 0 (arr_of_rows [zeros3])) (Some (arr_of_vec3 ex_kpt)).
Proof.
  apply (@eta_zero_reciprocal_only Q _ ex_ext (ex_df 0 (arr_of_rows [zeros3]))
           ex_grid [ex_kpt] (Some (arr_of_vec3 ex_kpt)) (fun _ _ _ => [])).
  reflexivity.
Defined.


(** C3 on the example: a batch of two k-points. *)
Lemma get_pp_additive_witness :
  exists r,
    get_pp ex_ext (ex_df 1 (arr_of_rows [zeros3]))
           (Some (arr_of_rows [ex_kpt; zeros3])) = Ok r /\
    forall k, (k < length [ex_kpt; zeros3])%nat ->
              (single_kpt (Some (arr_of_rows [ex_kpt; zeros3])) = true ->
               k = 0%nat) ->
      exists p a b m,
        nth_error (get_pp_nl ex_ext [ex_kpt; zeros3]) k = Some p /\
        nth_error ex_vloc1 k = Some a /\
        nth_error (get_pp_loc_part2 ex_ext [ex_kpt; zeros3]) k = Some b /\
        mats_nth r k = Some m /\
        m = madd p (madd a b) /\
        is_real m = is_real p /\
        forall (i j : nat) (x y z : complex Q),
          mentry p i j = Some x ->
          mentry a i j = Some y ->
          mentry b i j = Some z ->
          mentry m i j =
          Some (entry_add (is_real p) (is_real a && is_real b) x
                          (entry_add (is_real a) (is_real b) y z)).
Proof.
  apply (@get_pp_additive Q _ ex_ext (ex_df 1 (arr_of_rows [zeros3]))
           (Some (arr_of_rows [ex_kpt; zeros3])) [ex_kpt; zeros3] ex_vloc1).
  - reflexivity.
  - discriminate.
  - vm_compute. reflexivity.
  - intros k Hk.
    destruct k as [| [| k]]; [| | cbn in Hk; lia];
      do 4 eexists; (split; [reflexivity |]);
      (split; [vm_compute; reflexivity |]);
      (split; [reflexivity |]); reflexivity.
Defined.

End Witness.

(** * The grid is cut into blocks *)

Section Tiling.
Context {F : Type} `{Float F}.
Variable ext : Extern F.

Lemma tiles_app (a b c : Z) (l1 l2 : list (Z * Z)) :
  tiles a b l1 -> tiles b c l2 -> tiles a c (l1 ++ l2).
Proof.
  revert a. induction l1 as [| [p0 p1] l1 IH]; intros a H1 H2; cbn in *.
  - subst b. exact H2.
  - destruct H1 as (E & Hlt & H1). repeat split; try assumption.
    apply IH; assumption.
Qed.

Lemma tiles_shift (d a b : Z) (l : list (Z * Z)) :
  tiles a b l ->
  tiles (d + a) (d + b) (map (fun i : Z * Z => (d + fst i, d + snd i)%Z) l).
Proof.
  revert a. induction l as [| [p0 p1] l IH]; intros a Hl; cbn in *.
  - lia.
  - destruct Hl as (E & Hlt & Hl). repeat split; [lia | lia |].
    apply IH. exact Hl.
Qed.

Lemma tiles_points (a b : Z) (l : list (Z * Z)) :
  tiles a b l -> range_points l = (b - a)%Z /\ (a <= b)%Z.
Proof.
  revert a. induction l as [| [p0 p1] l IH]; intros a Hl; cbn in *.
  - lia.
  - destruct Hl as (E & Hlt & Hl). destruct (IH _ Hl) as (IH1 & IH2).
    unfold range_points in IH1. lia.
Qed.

(** The ranges [(start + i*step, min(start + (i+1)*step, stop))] for
    [i = s, ..., n-1] when [n] is the number of steps needed. *)
Lemma prange_tail_tiles (start stop step : Z) (n m s : nat) :
  (0 < step)%Z ->
  (s + m = n)%nat ->
  (start + Z.of_nat n * step - step < stop <= start + Z.of_nat n * step)%Z ->
  tiles (Z.min (start + Z.of_nat s * step) stop) stop
        (map (fun i : nat => let p := (start + Z.of_nat i * step)%Z in
                             (p, Z.min (p + step) stop))
             (seq s m)) /\
  Forall (fun p : Z * Z => (snd p - fst p <= step)%Z)
         (map (fun i : nat => let p := (start + Z.of_nat i * step)%Z in
                              (p, Z.min (p + step) stop))
              (seq s m)).
Proof.
  intros Hstep. revert s. induction m as [| m IH]; intros s Hsm Hn.
  - cbn. split; [nia | constructor].
  - cbn [seq map tiles]. cbv zeta.
    destruct (IH (S s)) as (IHt & IHf); [lia | exact Hn |].
    assert (Hs : (start + Z.of_nat s * step < stop)%Z) by nia.
    split.
    + split; [lia |]. split; [lia |].
      replace (start + Z.of_nat s * step + step)%Z
        with (start + Z.of_nat (S s) * step)%Z by lia.
      exact IHt.
    + constructor; [cbn; lia | exact IHf].
Qed.

Lemma prange_tiles (start stop step : Z) :
  (0 < step)%Z -> (start <= stop)%Z ->
  exists l, prange start stop step = Ok l /\
            tiles start stop l /\
            Forall (fun p : Z * Z => (snd p - fst p <= step)%Z) l.
Proof.
  intros Hstep Hle. unfold prange.
  destruct (Z.eqb_spec step 0) as [E | _]; [lia |].
  destruct (Z.ltb_spec step 0) as [E | _]; [lia |].
  eexists. split; [reflexivity |].
  set (q := ((stop - start + step - 1) / step)%Z).
  assert (Hq : (step * q <= stop - start + step - 1 < step * (q + 1))%Z).
  { pose proof (Z.mul_div_le (stop - start + step - 1) step Hstep) as H1.
    pose proof (Z.mul_succ_div_gt (stop - start + step - 1) step Hstep) as H2.
    fold q in H1, H2. lia. }
  assert (Hq0 : (0 <= q)%Z) by (apply Z.div_pos; lia).
  pose proof (@prange_tail_tiles start stop step (Z.to_nat q) (Z.to_nat q) 0
                Hstep eq_refl) as Ht.
  cbn [Z.of_nat] in Ht. rewrite Z.mul_0_l, Z.add_0_r in Ht.
  rewrite Z.min_l in Ht by exact Hle.
  apply Ht. rewrite Z2Nat.id by exact Hq0. nia.
Qed.

Lemma grid_ngs_nonneg (g : grid F) : (0 <= grid_ngs g)%Z.
Proof.
  unfold grid_ngs. induction (Gvbase g) as [| x l IH]; cbn; [lia | nia].
Qed.

(** ft_loop once its k-points, pair count, block size and blocks are known:
    one item per block, in the order of the blocks. *)
Lemma ft_loop_blocks (self : AFTDF F) (gs : option (list Z)) (q : vec3 F)
      (kpts : option (ndarray F)) (k : ndarray F)
      (shls_slice : option shls_slice_t) (M : float) (aosym : aosym_t)
      (nij b : Z) (blocks : list (Z * Z)) :
  let cell := self_cell self in
  let g := get_Gv_weights cell
             (match gs with None => self_gs self | Some gs => gs end) in
  let ss := match shls_slice with
            | None => (0, nbas cell, 0, nbas cell)%Z
            | Some s => s
            end in
  ft_kpts ext self q kpts = Ok k ->
  pair_count (ao_loc_nr cell) aosym ss = Ok nij ->
  ft_blksize M nij (py_len k) (grid_ngs g) = Ok b ->
  prange 0 (grid_ngs g) b = Ok blocks ->
  ft_loop ext self gs q kpts shls_slice M aosym
  = Gen (map (fun p : Z * Z =>
                FtItem (ft_aopair_kpts ext (slice (Gv g) (fst p) (snd p)) ss
                          aosym (fst p, snd p) q k) (fst p) (snd p))
             blocks) None.
Proof.
  intros cell g ss Hk Hnij Eb El.
  unfold ft_loop. cbv zeta. rewrite Hk. cbn [bind].
  fold cell. fold g. fold ss. rewrite Hnij. cbn [bind]. rewrite Eb. cbn [bind].
  rewrite El. cbn [bind gen_of_result]. f_equal.
  apply map_ext. intros [p0 p1]. reflexivity.
Qed.


(** The ranges of the sub-blocks of one block. *)
Lemma pw_block_ranges (g : grid F) ss aosym (q kptj : vec3 F) (nij sub p0 p1 : Z) :
  map pw_range (pw_block ext g ss aosym q kptj nij sub (p0, p1)) =
  map (fun i : Z * Z => (p0 + fst i, p0 + snd i)%Z)
      (prange_list 0 (p1 - p0) sub).
Proof.
  unfold pw_block. cbv zeta. rewrite map_map.
  apply map_ext. intros [i0 i1]. reflexivity.
Qed.

Lemma pw_blocks_tile (g : grid F) ss aosym (q kptj : vec3 F) (nij sub : Z)
      (blocks : list (Z * Z)) (a b : Z) :
  (0 < sub)%Z ->
  tiles a b blocks ->
  tiles a b (map pw_range
                 (flat_map (pw_block ext g ss aosym q kptj nij sub) blocks)) /\
  Forall (fun it : pw_item F => (pw_stop it - pw_start it <= sub)%Z)
         (flat_map (pw_block ext g ss aosym q kptj nij sub) blocks).
Proof.
  intros Hsub. revert a.
  induction blocks as [| [p0 p1] blocks IH]; intros a Ht; cbn [flat_map].
  - split; [exact Ht | constructor].
  - cbn [tiles] in Ht. destruct Ht as (-> & Hlt & Ht).
    destruct (IH _ Ht) as (IHt & IHf).
    destruct (@prange_tiles 0 (p1 - a) sub Hsub) as (l & El & Hl & Hf); [lia |].
    assert (El' : prange_list 0 (p1 - a) sub = l)
      by (unfold prange_list; rewrite El; reflexivity).
    split.
    + rewrite map_app, pw_block_ranges, El'.
      eapply tiles_app; [| exact IHt].
      pose proof (@tiles_shift a 0 (p1 - a) l Hl) as Hs.
      replace (a + 0)%Z with a in Hs by lia.
      replace (a + (p1 - a))%Z with p1 in Hs by lia. exact Hs.
    + apply Forall_app. split; [| exact IHf].
      unfold pw_block. cbv zeta. rewrite El'. apply Forall_map.
      eapply Forall_impl; [| exact Hf].
      intros [i0 i1] Hi. cbn in *. lia.
Qed.


Lemma prange_single (d step : Z) :
  (0 < d <= step)%Z -> prange 0 d step = Ok [(0, d)%Z].
Proof.
  intros Hd. unfold prange.
  destruct (Z.eqb_spec step 0) as [E | _]; [lia |].
  destruct (Z.ltb_spec step 0) as [E | _]; [lia |].
  assert (E : ((d - 0 + step - 1) / step = 1)%Z)
    by (symmetry; apply Z.div_unique with (d - 1)%Z; lia).
  rewrite E. change (Z.to_nat 1) with 1%nat. cbn [seq map Z.of_nat]. cbv zeta.
  rewrite Z.mul_0_l, !Z.add_0_l, Z.min_r by lia. reflexivity.
Qed.

Lemma pw_blocks_whole (g : grid F) ss aosym (q kptj : vec3 F) (nij b : Z)
      (blocks : list (Z * Z)) (a c : Z) :
  tiles a c blocks ->
  Forall (fun p : Z * Z => (snd p - fst p <= b)%Z) blocks ->
  map pw_range (flat_map (pw_block ext g ss aosym q kptj nij b) blocks)
  = blocks.
Proof.
  revert a. induction blocks as [| [p0 p1] blocks IH]; intros a Ht Hf.
  - reflexivity.
  - cbn [tiles] in Ht. destruct Ht as (-> & Hlt & Ht).
    inversion Hf as [| x l Hx Hl]; subst. cbn in Hx.
    cbn [flat_map]. rewrite map_app, pw_block_ranges.
    unfold prange_list. rewrite prange_single by lia. cbn [map fst snd app].
    rewrite (IH _ Ht Hl). f_equal. f_equal; lia.
Qed.

(** pw_loop with an explicit blksize that prange accepts: the sub-blocks of
    every block, with sublk = blksize. *)
Lemma pw_loop_given_blksize (self : AFTDF F) (gs : option (list Z))
      (kk : option (vec3 F * vec3 F)) (q : option (vec3 F))
      (shls_slice : option shls_slice_t) (M : float) (aosym : aosym_t)
      (b nij : Z) (blocks : list (Z * Z)) :
  let cell := self_cell self in
  let g := get_Gv_weights cell
             (match gs with None => self_gs self | Some gs => gs end) in
  let ss := match shls_slice with
            | None => (0, nbas cell, 0, nbas cell)%Z
            | Some s => s
            end in
  pair_count (ao_loc_nr cell) aosym ss = Ok nij ->
  prange 0 (grid_ngs g) b = Ok blocks ->
  exists qq kptj,
    pw_loop ext self gs kk q shls_slice M aosym (Some b)
    = Gen (flat_map (pw_block ext g ss aosym qq kptj nij b) blocks) None.
Proof.
  intros cell g ss Hnij El. unfold pw_loop.
  destruct kk as [[kpti kptj] |]; cbv zeta beta;
    fold cell; fold g; fold ss; rewrite Hnij; cbn [bind];
    cbv beta iota; rewrite El; cbn [bind gen_of_result];
    do 2 eexists; reflexivity.
Qed.


End Tiling.

(** * The density-fitting loop *)

Section LoopRows.
Context {F : Type} `{Float F}.
Variable ext : Extern F.
Variable edf : ExternDF F.

Lemma length_transpose {A} (d : A) (n : nat) (m : list (list A)) :
  length (transpose d n m) = n.
Proof.
  unfold transpose. rewrite length_map, length_seq. reflexivity.
Qed.

Lemma nth_zip_with {A B C} (f : A -> B -> C) (a : list A) (b : list B)
      (da : A) (db : B) (d : C) (k : nat) :
  (k < length a)%nat -> (k < length b)%nat ->
  nth k (zip_with f a b) d = f (nth k a da) (nth k b db).
Proof.
  intros Ha Hb. apply nth_error_nth.
  rewrite nth_error_zip_with.
  rewrite (nth_error_nth' a da Ha), (nth_error_nth' b db Hb). reflexivity.
Qed.

(** An entry of the matrix [loop] yields for a block: the rows of the
    block's pairs, one part of each, transposed, scaled and transposed
    back. *)
Lemma scaled_block_entry (part : complex F -> F)
      (aoao : list (list (complex F))) (vG : list F) (nij nG g x : nat) :
  part c0 = f0 ->
  (g < nG)%nat -> (x < nij)%nat ->
  (g < length aoao)%nat -> (g < length vG)%nat ->
  entry (transpose f0 nG
           (map (fun row => zip_with fmul row vG)
                (transpose f0 nij (map (map part) (firstn nG aoao)))))
        g x
  = Some (fmul (part (nth x (nth g aoao []) c0)) (nth g vG f0)).
Proof.
  intros Hpart Hg Hx Ha Hv.
  unfold entry, transpose.
  rewrite nth_error_map_seq.
  destruct (Nat.ltb_spec g nG) as [_ | Hge]; [| lia].
  cbv beta iota.
  rewrite !nth_error_map, nth_error_seq.
  destruct (Nat.ltb_spec x nij) as [_ | Hge]; [| lia].
  cbn [option_map Nat.add]. f_equal.
  rewrite (@nth_zip_with _ _ _ fmul _ vG f0 f0 f0 g);
    [| rewrite !length_map, length_firstn; lia | exact Hv].
  f_equal.
  rewrite (nth_indep _ f0 (nth x (@nil F) f0))
    by (rewrite !length_map, length_firstn; lia).
  rewrite (map_nth (fun row : list F => nth x row f0)).
  change (@nil F) with (map part (@nil (complex F))).
  rewrite map_nth, nth_firstn.
  destruct (Nat.ltb_spec g nG) as [_ | Hge]; [| lia].
  rewrite <- Hpart. apply map_nth.
Qed.

Lemma loop_body_rows (coulG : list F) (items : list (pw_item F)) (a b : Z) :
  tiles a b (map pw_range items) ->
  total_rows (flat_map (loop_body edf coulG) items) = (2 * (b - a))%Z /\
  length (flat_map (loop_body edf coulG) items) = (2 * length items)%nat.
Proof.
  revert a. induction items as [| it items IH]; intros a Ht.
  - cbn in Ht. subst b. cbn [flat_map total_rows fold_right length].
    split; [lia | reflexivity].
  - cbn [map tiles pw_range] in Ht. destruct Ht as (Ea & Hlt & Ht).
    destruct (IH _ Ht) as (IH1 & IH2).
    cbn [flat_map]. unfold loop_body at 1 3. cbv zeta.
    cbn [app total_rows fold_right length].
    rewrite !length_transpose.
    change (fold_right (fun (m : list (list F)) (acc : Z) =>
                          (Z.of_nat (length m) + acc)%Z) 0%Z
                       (flat_map (loop_body edf coulG) items))
      with (total_rows (flat_map (loop_body edf coulG) items)).
    rewrite IH1, IH2. cbn [pw_range fst snd] in *. split; lia.
Qed.

(** The grid of the mesh has [2*gs_i + 1] base points along each axis. *)
Lemma grid_ngs_of_mesh (g : grid F) (gs : list Z) :
  map (fun x => Z.of_nat (length x)) (Gvbase g)
  = map (fun m => (2 * m + 1)%Z) gs ->
  grid_ngs g = grid_point_count gs.
Proof.
  unfold grid_ngs, grid_point_count. intros ->.
  induction gs as [| m gs IH]; cbn [map fold_right];
    [reflexivity | rewrite IH; reflexivity].
Qed.

(** The blocks of a tiling are non-empty ranges. *)
Lemma tiles_In (a c : Z) (l : list (Z * Z)) (p : Z * Z) :
  tiles a c l -> In p l -> (a <= fst p < snd p)%Z.
Proof.
  revert a. induction l as [| [p0 p1] l IH]; intros a Ht Hin; [contradiction |].
  cbn [tiles] in Ht. destruct Ht as (-> & Hlt & Ht).
  destruct Hin as [<- | Hin]; [cbn; lia |].
  specialize (IH _ Ht Hin). lia.
Qed.

Lemma slice_0 {A} (l : list A) (k : Z) : slice l 0 k = firstn (Z.to_nat k) l.
Proof. unfold slice. rewrite Z.sub_0_r. reflexivity. Qed.

(** The one item that [pw_loop] yields for a block no longer than sublk. *)
Lemma pw_block_whole (g : grid F) ss aosym (q kptj : vec3 F) (nij b : Z)
      (p : Z * Z) :
  (0 < snd p - fst p <= b)%Z ->
  pw_block ext g ss aosym q kptj nij b p =
  let aoao := hd [] (ft_aopair_kpts ext (slice (Gv g) (fst p) (snd p)) ss
                       aosym p q (arr_of_rows [kptj])) in
  [PwItem (transpose f0 (Z.to_nat nij)
             (map (map re) (firstn (Z.to_nat (snd p - fst p)) aoao)))
          (transpose f0 (Z.to_nat nij)
             (map (map im) (firstn (Z.to_nat (snd p - fst p)) aoao)))
          (fst p) (snd p)].
Proof.
  destruct p as [p0 p1]. cbn [fst snd]. intros Hp.
  unfold pw_block, prange_list. rewrite prange_single by lia.
  cbn [map]. cbv zeta. rewrite !slice_0.
  rewrite Z.add_0_r. replace (p0 + (p1 - p0))%Z with p1 by lia.
  reflexivity.
Qed.

Lemma flat_map_flat_map {A B C} (f : A -> list B) (h : B -> list C)
      (l : list A) :
  flat_map h (flat_map f l) = flat_map (fun x => flat_map h (f x)) l.
Proof.
  induction l as [| x l IH]; cbn [flat_map]; [reflexivity |].
  rewrite flat_map_app, IH. reflexivity.
Qed.

(** The elements of a list made of pairs. *)
Lemma nth_error_flat_pairs {A B} (f : A -> list B) (a1 a2 : A -> B)
      (l : list A) :
  (forall x, In x l -> f x = [a1 x; a2 x]) ->
  forall n x, nth_error l n = Some x ->
    nth_error (flat_map f l) (2 * n) = Some (a1 x) /\
    nth_error (flat_map f l) (2 * n + 1) = Some (a2 x).
Proof.
  induction l as [| y l IH]; intros Hf n x Hn.
  - destruct n; discriminate.
  - cbn [flat_map]. rewrite (Hf y) by (left; reflexivity).
    destruct n as [| n].
    + injection Hn as <-. split; reflexivity.
    + cbn [nth_error] in Hn.
      destruct (IH (fun z Hz => Hf z (or_intror Hz)) n x Hn) as (E1 & E2).
      replace (2 * S n)%nat with (S (S (2 * n))) by lia.
      replace (S (S (2 * n)) + 1)%nat with (S (S (2 * n + 1))) by lia.
      split; [exact E1 | exact E2].
Qed.

Lemma nth_sqrt_slice (coulG : list F) (p0 p1 : Z) (g : nat) :
  (0 <= p0)%Z ->
  (g < Z.to_nat (p1 - p0))%nat ->
  (Z.to_nat p0 + g < length coulG)%nat ->
  (g < length (map (numpy_sqrt edf) (slice coulG p0 p1)))%nat /\
  nth g (map (numpy_sqrt edf) (slice coulG p0 p1)) f0
  = numpy_sqrt edf (nth (Z.to_nat p0 + g) coulG f0).
Proof.
  intros Hp Hg Hlen. unfold slice.
  assert (Hl : (g < length (firstn (Z.to_nat (p1 - p0))
                              (skipn (Z.to_nat p0) coulG)))%nat).
  { rewrite length_firstn, length_skipn. lia. }
  split; [rewrite length_map; exact Hl |].
  rewrite (nth_indep _ f0 (numpy_sqrt edf f0)) by (rewrite length_map; exact Hl).
  rewrite map_nth, nth_firstn.
  destruct (Nat.ltb_spec g (Z.to_nat (p1 - p0))) as [_ | Hge]; [| lia].
  rewrite nth_skipn. reflexivity.
Qed.

(** pw_loop as [loop] calls it: no k-points, no q, packed pairs of all
    shells, the block size of the object. *)
Lemma pw_loop_of_loop (self : AFTDF F) (nij : Z) (blocks : list (Z * Z)) :
  let cell := self_cell self in
  let g := get_Gv_weights cell (self_gs self) in
  pair_count (ao_loc_nr cell) S2 (0, nbas cell, 0, nbas cell)%Z = Ok nij ->
  prange 0 (grid_ngs g) (self_blockdim self) = Ok blocks ->
  pw_loop ext self None None None None 2000 S2 (Some (self_blockdim self))
  = Gen (flat_map (pw_block ext g (0, nbas cell, 0, nbas cell)%Z S2
                     (vec3_sub zeros3 zeros3) zeros3 nij (self_blockdim self))
                  blocks) None.
Proof.
  intros cell g Hnij El. unfold pw_loop. cbv zeta beta.
  fold cell. fold g. rewrite Hnij. cbn [bind]. cbv beta iota.
  rewrite El. reflexivity.
Qed.


End LoopRows.

(** * Every grid vector is handed out once *)

Section Slices.
Context {F : Type} `{Float F}.
Variable ext : Extern F.

Lemma tiles_slices {A} (L : list A) (l : list (Z * Z)) (a : Z) :
  (0 <= a)%Z ->
  tiles a (Z.of_nat (length L)) l ->
  concat (map (fun p : Z * Z => slice L (fst p) (snd p)) l)
  = skipn (Z.to_nat a) L.
Proof.
  revert a. induction l as [| [p0 p1] l IH]; intros a Ha Ht; cbn [tiles] in Ht.
  - cbn. rewrite Ht, Nat2Z.id. symmetry. apply skipn_all.
  - destruct Ht as (-> & Hlt & Ht). cbn [map concat fst snd].
    rewrite (IH p1) by (lia || exact Ht). unfold slice.
    replace (Z.to_nat p1) with (Z.to_nat (p1 - a) + Z.to_nat a)%nat by lia.
    rewrite <- skipn_skipn. apply firstn_skipn.
Qed.


End Slices.

(** * The k-point array of get_nuc and get_pp *)

Section KpointArray.
Context {F : Type} `{Float F}.
Variable ext : Extern F.

(** [numpy.reshape(., (-1,3))]: either the consecutive triples, which
    flatten back to the data, or a refusal of a size not divisible by 3. *)
Lemma chunk3_cases (n : nat) :
  forall l : list F, (length l < n)%nat ->
    (exists rows, chunk3 l = Ok rows /\ flat_map vec3_list rows = l /\
                  (3 * length rows = length l)%nat) \/
    (chunk3 l = Raise ValueError /\ length l mod 3 <> 0%nat).
Proof.
  induction n as [| n IH]; intros l Hl; [lia |].
  destruct l as [| a [| b [| c r]]].
  - left. exists []. repeat split.
  - right. split; [reflexivity | cbn; discriminate].
  - right. split; [reflexivity | cbn; discriminate].
  - cbn [length] in Hl. destruct (IH r ltac:(lia)) as [(rows & E & Ef & El) | (E & Hm)].
    + left. exists ((a, b, c) :: rows). cbn [chunk3]. rewrite E. cbn [bind].
      split; [reflexivity |]. split; [cbn; rewrite Ef; reflexivity |].
      cbn [length]. lia.
    + right. cbn [chunk3]. rewrite E. cbn [bind]. split; [reflexivity |].
      cbn [length].
      replace (S (S (S (length r)))) with (length r + 1 * 3)%nat by lia.
      rewrite Nat.Div0.mod_add. exact Hm.
Qed.

Lemma reshape_ok (a : ndarray F) (n : nat) :
  length (data a) = (3 * n)%nat ->
  exists rows, reshape_m1_3 a = Ok rows /\ flat_map vec3_list rows = data a /\
               length rows = n.
Proof.
  intros Hn. unfold reshape_m1_3.
  destruct (@chunk3_cases (S (length (data a))) (data a) ltac:(lia))
    as [(rows & E & Ef & El) | (_ & Hm)].
  - exists rows. repeat split; try assumption. lia.
  - exfalso. apply Hm. rewrite Hn, Nat.mul_comm. apply Nat.Div0.mod_mul.
Qed.

Lemma reshape_refused (a : ndarray F) :
  length (data a) mod 3 <> 0%nat -> reshape_m1_3 a = Raise ValueError.
Proof.
  intros Hm. unfold reshape_m1_3.
  destruct (@chunk3_cases (S (length (data a))) (data a) ltac:(lia))
    as [(rows & _ & _ & El) | (E & _)]; [| exact E].
  exfalso. apply Hm. rewrite <- El, Nat.mul_comm. apply Nat.Div0.mod_mul.
Qed.

(** A k-point array whose size is not a multiple of three is refused by
    get_nuc and by get_pp with the ValueError of the reshape, whatever the
    object and the collaborators. *)
Theorem kpts_size_checked (self : AFTDF F) (a : ndarray F) :
  length (data a) mod 3 <> 0%nat ->
  get_nuc ext self (Some a) = Raise ValueError /\
  get_pp ext self (Some a) = Raise ValueError.
Proof.
  intros Hm. unfold get_nuc, get_nuc_with, get_pp, kpts_rows.
  rewrite (@reshape_refused a Hm). split; reflexivity.
Qed.


(** ** The Gamma-point rows of the accumulation *)

Lemma map_im_zip_seq (f : nat -> complex F -> complex F) (l : list (complex F))
      (s : nat) :
  (forall x v, im (f x v) = im v) ->
  map im (zip_with f (seq s (length l)) l) = map im l.
Proof.
  intros Hf. revert s. induction l as [| v l IH]; intros s; cbn.
  - reflexivity.
  - rewrite Hf. f_equal. apply (IH (S s)).
Qed.

Lemma map_im_imap (f : nat -> complex F -> complex F) (l : list (complex F)) :
  (forall x v, im (f x v) = im v) -> map im (imap f l) = map im l.
Proof.
  intros Hf. unfold imap. apply map_im_zip_seq. exact Hf.
Qed.

Lemma nuc_accumulate_im (vG : list (complex F)) (kpt : vec3 F)
      (aoao : list (list (complex F))) (vjk : list (complex F)) :
  gamma_point ext kpt = true ->
  map im (nuc_accumulate ext vG kpt aoao vjk) = map im vjk.
Proof.
  intros Hg. unfold nuc_accumulate. rewrite Hg.
  rewrite !map_im_imap by reflexivity. reflexivity.
Qed.

Lemma nth_imap {A} (f : nat -> list A -> list A) (l : list (list A)) (k : nat) :
  nth k (imap f l) [] =
  match nth_error l k with
  | Some x => f k x
  | None => []
  end.
Proof.
  pose proof (nth_error_imap f l k) as E.
  destruct (nth_error l k) as [x |] eqn:El.
  - apply nth_error_nth. exact E.
  - apply nth_overflow. apply nth_error_None. exact E.
Qed.

Lemma nuc_block_im (vG : list (complex F)) (rows : list (vec3 F))
      (vj : list (list (complex F))) (it : ft_item F) (k : nat) (kpt : vec3 F) :
  nth_error rows k = Some kpt ->
  gamma_point ext kpt = true ->
  map im (nth k (nuc_block ext vG rows vj it) []) = map im (nth k vj []).
Proof.
  intros Hk Hg. unfold nuc_block. rewrite nth_imap.
  destruct (nth_error vj k) as [vjk |] eqn:Evj.
  - rewrite (nth_error_nth _ _ _ Evj). rewrite Hk.
    destruct (nth_error (ft_dat it) k); [| reflexivity].
    apply nuc_accumulate_im. exact Hg.
  - rewrite nth_overflow by (apply nth_error_None; exact Evj). reflexivity.
Qed.

(** At a k-point that gamma_point accepts, the loop of get_nuc over the
    blocks never changes the imaginary part of an entry of vj[k]; with
    eta == 0, where vj starts from zeros, these imaginary parts are all zero
    after any number of blocks, so that the real part taken afterwards
    drops nothing. *)
Theorem gamma_rows_keep_imag (self : AFTDF F) (g : grid F)
        (rows : list (vec3 F)) (k : nat) (kpt : vec3 F)
        (items : list (ft_item F)) :
  nth_error rows k = Some kpt ->
  gamma_point ext kpt = true ->
  (forall vG vj0,
      map im (nth k (fold_left (nuc_block ext vG rows) items vj0) [])
      = map im (nth k vj0 [])) /\
  (feqb (self_eta self) f0 = true ->
   forall f,
     map im (nth k (fold_left
                      (nuc_block ext (fst (nuc_density ext f self g rows)) rows)
                      items (snd (nuc_density ext f self g rows))) [])
     = repeat f0 (nao_nr (self_cell self) * (nao_nr (self_cell self) + 1) / 2)).
Proof.
  intros Hk Hg.
  assert (Hkeep : forall vG vj0,
             map im (nth k (fold_left (nuc_block ext vG rows) items vj0) [])
             = map im (nth k vj0 [])).
  { intros vG. induction items as [| it items IH]; intros vj0; cbn [fold_left].
    - reflexivity.
    - rewrite IH. apply (@nuc_block_im vG rows _ it k kpt Hk Hg). }
  split; [exact Hkeep |].
  intros Heta f. rewrite Hkeep.
  unfold nuc_density. cbv zeta. rewrite Heta. cbn [snd].
  assert (Hlt : (k < length rows)%nat) by (apply nth_error_Some; congruence).
  rewrite (nth_indep _ [] (repeat c0 (nao_nr (self_cell self)
                                      * (nao_nr (self_cell self) + 1) / 2)))
    by (rewrite repeat_length; exact Hlt).
  rewrite nth_repeat.
  induction (nao_nr (self_cell self) * (nao_nr (self_cell self) + 1) / 2)%nat
    as [| m IHm]; cbn; [reflexivity | rewrite IHm; reflexivity].
Qed.

End KpointArray.

(** * Pair counts *)

Section PairCount.

Lemma tri_succ (n : Z) :
  ((n + 1) * (n + 1 + 1) / 2 = n * (n + 1) / 2 + n + 1)%Z.
Proof.
  replace ((n + 1) * (n + 1 + 1))%Z with (n * (n + 1) + (n + 1) * 2)%Z by lia.
  rewrite Z.div_add by lia. lia.
Qed.

Lemma triangle_rows_eq (d i0 : nat) :
  triangle_rows i0 (i0 + d) =
  (Z.of_nat (i0 + d) * (Z.of_nat (i0 + d) + 1) / 2
   - Z.of_nat i0 * (Z.of_nat i0 + 1) / 2)%Z.
Proof.
  unfold triangle_rows. replace (i0 + d - i0)%nat with d by lia.
  revert i0. induction d as [| d IH]; intros i0.
  - cbn [seq fold_right]. rewrite Nat.add_0_r. lia.
  - cbn [seq fold_right]. rewrite (IH (S i0)).
    replace (S i0 + d)%nat with (i0 + S d)%nat by lia.
    replace (Z.of_nat (S i0)) with (Z.of_nat i0 + 1)%Z by lia.
    rewrite tri_succ. lia.
Qed.

(** Below 2^30 in magnitude an int32 operation is exact. *)
Lemma int32_small (z : Z) : (- 2 ^ 31 <= z < 2 ^ 31)%Z -> int32 z = z.
Proof. intros Hz. unfold int32. apply wrap_small; lia. Qed.

(** In packed mode with a zero second-range start, for offsets
    i0 = ao_loc[sh0] <= i1 = ao_loc[sh1] <= 46340 (so that i1*(i1+1) fits
    int32), the pair count is the number of orbital pairs (i, j) with
    i0 <= i < i1 and j <= i, one row of the triangle after the other; for
    i0 = 0 it is the i1(i1+1)//2 that get_nuc takes as the length of its
    packed rows, and twice it is the full count i1*i1 plus the diagonal
    i1. *)
Theorem packed_pair_count (ao_loc : Z -> Z) (sh0 sh1 sh3 : Z) (i0 i1 : nat) :
  ao_loc sh0 = Z.of_nat i0 ->
  ao_loc sh1 = Z.of_nat i1 ->
  (i0 <= i1)%nat ->
  (Z.of_nat i1 <= 46340)%Z ->
  pair_count ao_loc S2 (sh0, sh1, 0%Z, sh3) = Ok (triangle_rows i0 i1) /\
  (i0 = 0%nat ->
   triangle_rows i0 i1 = Z.of_nat (i1 * (i1 + 1) / 2) /\
   pair_count ao_loc S1 (sh0, sh1, sh0, sh1)
   = Ok (2 * triangle_rows i0 i1 - Z.of_nat i1)%Z).
Proof.
  intros E0 E1 Hle Hmax.
  pose proof (triangle_rows_eq (i1 - i0) i0) as Ht.
  replace (i0 + (i1 - i0))%nat with i1 in Ht by lia.
  assert (Htri : forall i : nat, (Z.of_nat i <= 46340)%Z ->
            (0 <= Z.of_nat i * (Z.of_nat i + 1) < 2 ^ 31)%Z).
  { intros i Hi. change (2 ^ 31)%Z with 2147483648%Z. nia. }
  assert (Hhalf : forall i : nat, (Z.of_nat i <= 46340)%Z ->
            (0 <= Z.of_nat i * (Z.of_nat i + 1) / 2 < 2 ^ 30)%Z).
  { intros i Hi. pose proof (Htri i Hi) as Hi'.
    change (2 ^ 31)%Z with 2147483648%Z in Hi'.
    change (2 ^ 30)%Z with 1073741824%Z.
    split; [apply Z.div_pos; lia | apply Z.div_lt_upper_bound; lia]. }
  assert (Hpow : (2 ^ 31 = 2147483648)%Z) by reflexivity.
  assert (Hpow' : (2 ^ 30 = 1073741824)%Z) by reflexivity.
  assert (Hmono : (Z.of_nat i0 * (Z.of_nat i0 + 1) / 2
                   <= Z.of_nat i1 * (Z.of_nat i1 + 1) / 2)%Z).
  { apply Z.div_le_mono; [lia | nia]. }
  pose proof (Htri i0 ltac:(lia)) as H0. pose proof (Htri i1 Hmax) as H1.
  pose proof (Hhalf i0 ltac:(lia)) as G0. pose proof (Hhalf i1 Hmax) as G1.
  assert (ES2 : pair_count ao_loc S2 (sh0, sh1, 0%Z, sh3)
                = Ok (triangle_rows i0 i1)).
  { unfold pair_count. change (0 =? 0)%Z with true. cbv iota zeta.
    rewrite E0, E1.
    rewrite (@int32_small (Z.of_nat i1 + 1)%Z) by lia.
    rewrite (@int32_small (Z.of_nat i0 + 1)%Z) by lia.
    rewrite (@int32_small (Z.of_nat i1 * _)%Z) by lia.
    rewrite (@int32_small (Z.of_nat i0 * _)%Z) by lia.
    rewrite (@int32_small (Z.of_nat i1 * _ / 2)%Z) by lia.
    rewrite (@int32_small (Z.of_nat i0 * _ / 2)%Z) by lia.
    rewrite int32_small by lia. rewrite Ht. reflexivity. }
  split; [exact ES2 |].
  intros ->. cbn [Z.of_nat] in Ht. rewrite Ht.
  assert (Ed : (Z.of_nat i1 * (Z.of_nat i1 + 1) / 2
                = Z.of_nat (i1 * (i1 + 1) / 2))%Z).
  { rewrite Nat2Z.inj_div, Nat2Z.inj_mul, Nat2Z.inj_add. reflexivity. }
  split; [rewrite <- Ed; cbn; lia |].
  unfold pair_count. rewrite E0, E1. cbn [Z.of_nat].
  rewrite Z.sub_0_r.
  rewrite (@int32_small (Z.of_nat i1)) by lia.
  rewrite int32_small by nia.
  f_equal.
  change (0 * (0 + 1) / 2)%Z with 0%Z.
  assert (Hev : (Z.of_nat i1 * (Z.of_nat i1 + 1) mod 2 = 0)%Z).
  { rewrite Z.mul_comm. apply Z.mod_divide; [lia |].
    destruct (Z.Even_or_Odd (Z.of_nat i1)) as [[k Ek] | [k Ek]].
    - rewrite Ek. exists ((2 * k + 1) * k)%Z. lia.
    - rewrite Ek. exists ((k + 1) * (2 * k + 1))%Z. lia. }
  pose proof (Z.div_mod (Z.of_nat i1 * (Z.of_nat i1 + 1)) 2 ltac:(lia)) as Hd.
  rewrite Hev in Hd. nia.
Qed.

End PairCount.

(** * The further theorems on the example cell *)

Module WitnessMore.
Import Example ExampleDF.






(** An array of four numbers is no array of k-points. *)
Lemma kpts_size_checked_witness :
  get_nuc ex_ext (ex_df 1 (arr_of_rows [zeros3]))
          (Some (NdArray 4 [] [0; 0; 0; 1]%Q)) = Raise ValueError /\
  get_pp ex_ext (ex_df 1 (arr_of_rows [zeros3]))
         (Some (NdArray 4 [] [0; 0; 0; 1]%Q)) = Raise ValueError.
Proof.
  apply (@kpts_size_checked Q _ ex_ext (ex_df 1 (arr_of_rows [zeros3]))
           (NdArray 4 [] [0; 0; 0; 1]%Q)).
  discriminate.
Defined.

Lemma ex_ready2 (eta : Q) (kpts : ndarray Q) :
  ft_ready ex_ext (ex_df eta kpts) 2.
Proof.
  unfold ft_ready. split; [discriminate |]. split; [reflexivity |].
  exists 3%Z. reflexivity.
Defined.


(** The second k-point of the batch above, on the example with eta = 0 and
    the one block of three grid points that its ft_loop yields, whose
    Fourier transforms are 1 + 1j throughout. *)
Lemma gamma_rows_keep_imag_witness :
  ft_loop ex_ext (ex_df 0 (arr_of_rows [zeros3])) (Some [1; 0; 0]%Z) zeros3
          (Some (arr_of_rows [ex_kpt; zeros3])) None
          (nuc_max_memory ex_ext (ex_df 0 (arr_of_rows [zeros3]))) S2
  = Gen [FtItem (repeat (repeat (repeat (Cx 1%Q 1%Q) 10) 3) 2) 0 3] None /\
  (forall vG vj0,
      map im (nth 1 (fold_left (nuc_block ex_ext vG [ex_kpt; zeros3])
                       [FtItem (repeat (repeat (repeat (Cx 1%Q 1%Q) 10) 3) 2)
                               0 3] vj0) [])
      = map im (nth 1 vj0 [])) /\
  (feqb (self_eta (ex_df 0 (arr_of_rows [zeros3]))) f0 = true ->
   forall f,
     map im (nth 1 (fold_left
                      (nuc_block ex_ext
                         (fst (nuc_density ex_ext f
                                 (ex_df 0 (arr_of_rows [zeros3])) ex_grid
                                 [ex_kpt; zeros3]))
                         [ex_kpt; zeros3])
                      [FtItem (repeat (repeat (repeat (Cx 1%Q 1%Q) 10) 3) 2)
                              0 3]
                      (snd (nuc_density ex_ext f
                              (ex_df 0 (arr_of_rows [zeros3])) ex_grid
                              [ex_kpt; zeros3]))) [])
     = repeat f0 (nao_nr (self_cell (ex_df 0 (arr_of_rows [zeros3])))
                  * (nao_nr (self_cell (ex_df 0 (arr_of_rows [zeros3]))) + 1)
                  / 2)).
Proof.
  split; [reflexivity |].
  apply (@gamma_rows_keep_imag Q _ ex_ext (ex_df 0 (arr_of_rows [zeros3]))
           ex_grid [ex_kpt; zeros3] 1 zeros3
           [FtItem (repeat (repeat (repeat (Cx 1%Q 1%Q) 10) 3) 2) 0 3]);
    reflexivity.
Defined.

(** Shells of offsets 0, 1, 4: the ten pairs of four orbitals. *)
Lemma packed_pair_count_witness :
  pair_count (ao_loc_nr ex_cell) S2 (0, 2, 0, 2)%Z = Ok (triangle_rows 0 4) /\
  (0%nat = 0%nat ->
   triangle_rows 0 4 = Z.of_nat (4 * (4 + 1) / 2) /\
   pair_count (ao_loc_nr ex_cell) S1 (0, 2, 0, 2)%Z
   = Ok (2 * triangle_rows 0 4 - Z.of_nat 4)%Z).
Proof.
  apply (@packed_pair_count (ao_loc_nr ex_cell) 0 2 2 0 4);
    [reflexivity | reflexivity | lia | cbn; lia].
Defined.

End WitnessMore.

(** * An empty shell slice *)

Section EmptySlice.
Context {F : Type} `{Float F}.
Variable ext : Extern F.

(** int(x / 0) on a float64 x and a numpy zero: x / 0 is nan for a zero or
    a nan x and an infinity for any other x. *)
Lemma py_int_div_zero (x : float) :
  py_int (x / float_of_int 0)%float =
  Raise (match Prim2SF x with
         | S754_zero _ | S754_nan => ValueError
         | _ => OverflowError
         end).
Proof.
  unfold py_int. rewrite FloatAxioms.div_spec.
  change (Prim2SF (float_of_int 0)) with (S754_zero false).
  destruct (Prim2SF x) as [s | s | | s m e]; reflexivity.
Qed.

(** A shell slice without orbital pairs (or, in ft_loop, a batch without
    k-points) makes the memory budget a division by a numpy zero: the block
    size is int(nan), a ValueError, when the float64 numerator
    (max_memory*1e6*.75/16 in pw_loop, max_memory*.9e6 in ft_loop) is zero
    or nan, and int(inf), an OverflowError, for any other numerator; pw_loop
    (no blksize given) and ft_loop end on it with nothing yielded. *)
Theorem empty_slice_refused (self : AFTDF F) (gs : option (list Z))
        (kk : option (vec3 F * vec3 F)) (q : option (vec3 F)) (qf : vec3 F)
        (kpts : option (ndarray F)) (k : ndarray F)
        (shls_slice : option shls_slice_t) (M : float) (aosym : aosym_t)
        (nij : Z) :
  let cell := self_cell self in
  let e := fun x : float =>
             match Prim2SF x with
             | S754_zero _ | S754_nan => ValueError
             | _ => OverflowError
             end in
  pair_count (ao_loc_nr cell) aosym
             (match shls_slice with
              | None => (0, nbas cell, 0, nbas cell)%Z
              | Some s => s
              end) = Ok nij ->
  ft_kpts ext self qf kpts = Ok k ->
  (nij = 0%Z ->
   pw_loop ext self gs kk q shls_slice M aosym None
   = Gen [] (Some (e (M * 1e6 * 0.75 / 16)%float))) /\
  ((nij * py_len k = 0)%Z ->
   ft_loop ext self gs qf kpts shls_slice M aosym
   = Gen [] (Some (e (M * 0.9e6)%float))).
Proof.
  intros cell e Hnij Hk.
  split.
  - intros ->. unfold pw_loop.
    destruct kk as [[kpti kptj] |]; cbv zeta beta;
      fold cell; rewrite Hnij; cbn [bind];
      unfold pw_blksize, pw_budget; rewrite py_int_div_zero;
      cbn [bind gen_of_result]; reflexivity.
  - intros Hz. unfold ft_loop. cbv zeta. rewrite Hk. cbn [bind].
    fold cell. rewrite Hnij. cbn [bind].
    unfold ft_blksize, ft_budget. rewrite Hz.
    change (int32 (int32 0 * 16)) with 0%Z.
    rewrite py_int_div_zero. cbn [bind gen_of_result]. reflexivity.
Qed.

End EmptySlice.

Module WitnessEmpty.
Import Example.

(** The example with an empty first range of shells, at a budget of 2000 MB
    and at a budget of zero. *)
Lemma empty_slice_refused_witness :
  (pw_loop ex_ext (ex_df 0 (arr_of_rows [zeros3])) None None None
           (Some (0, 0, 0, 2)%Z) 2000 S1 None = Gen [] (Some OverflowError) /\
   ft_loop ex_ext (ex_df 0 (arr_of_rows [zeros3])) None zeros3 None
           (Some (0, 0, 0, 2)%Z) 2000 S1 = Gen [] (Some OverflowError)) /\
  (pw_loop ex_ext (ex_df 0 (arr_of_rows [zeros3])) None None None
           (Some (0, 0, 0, 2)%Z) 0 S1 None = Gen [] (Some ValueError) /\
   ft_loop ex_ext (ex_df 0 (arr_of_rows [zeros3])) None zeros3 None
           (Some (0, 0, 0, 2)%Z) 0 S1 = Gen [] (Some ValueError)).
Proof.
  split.
  - assert (Hw := @empty_slice_refused Q _ ex_ext
                    (ex_df 0 (arr_of_rows [zeros3])) None None None zeros3 None
                    (arr_of_rows [zeros3]) (Some (0, 0, 0, 2)%Z) 2000 S1 0%Z).
    cbv zeta in Hw. destruct Hw as [Hp Hf]; [reflexivity | reflexivity |].
    split; [apply Hp | apply Hf]; reflexivity.
  - assert (Hw := @empty_slice_refused Q _ ex_ext
                    (ex_df 0 (arr_of_rows [zeros3])) None None None zeros3 None
                    (arr_of_rows [zeros3]) (Some (0, 0, 0, 2)%Z) 0 S1 0%Z).
    cbv zeta in Hw. destruct Hw as [Hp Hf]; [reflexivity | reflexivity |].
    split; [apply Hp | apply Hf]; reflexivity.
Defined.

End WitnessEmpty.
